(** * S&P 500 / Nasdaq-100 technical scanner: a shallow embedding

    The development follows [SP500_NASDAQ100_SCAN.py].

    Modelling conventions.
    - A Python/NumPy [float64] is a value of [float]: not-a-number, the two
      infinities, or an exact rational.  Arithmetic is exact: rounding and
      overflow of binary64 and the sign of zero are not represented.  A
      missing ("undefined") value of a column is [NaN], as in pandas.
    - A [DataFrame] is a mutable object: it lives in a heap and is handed
      around by reference ([loc]).
    - Code runs in the monad [py]: it threads the [world] (heap and the
      sequence of observable calls: Streamlit output, requests) and either
      returns or raises.
    - The network ([pd.read_html], [yf.download]) and the sidebar widgets
      are inputs of the program: section variables below. *)

From Stdlib Require Import QArith Qcanon Lqa.
From stdpp Require Import base numbers list strings pretty gmap sorting.

Local Open Scope Z_scope.

(** ** Floating-point values *)

Inductive float : Type :=
  | NaN
  | NInf
  | PInf
  | Fin (q : Qc).

Global Instance float_eq_dec : EqDecision float.
Proof. solve_decision. Defined.

Global Instance float_inhabited : Inhabited float := populate NaN.

Module Float.

(** The literal [n/d], e.g. [lit 93 100] for [0.93]. *)
Definition lit (n : Z) (d : positive) : float := Fin (Q2Qc (n # d)).

Definition of_Z (n : Z) : float := Fin (Q2Qc (inject_Z n)).

Definition of_nat (n : nat) : float := of_Z (Z.of_nat n).

Definition is_nan (x : float) : bool :=
  match x with NaN => true | _ => false end.

Definition neg (x : float) : float :=
  match x with
  | NaN => NaN
  | NInf => PInf
  | PInf => NInf
  | Fin q => Fin (- q)%Qc
  end.

Definition add (x y : float) : float :=
  match x, y with
  | NaN, _ | _, NaN => NaN
  | PInf, NInf | NInf, PInf => NaN
  | PInf, _ | _, PInf => PInf
  | NInf, _ | _, NInf => NInf
  | Fin a, Fin b => Fin (a + b)%Qc
  end.

Definition sub (x y : float) : float := add x (neg y).

(** Sign of a rational: [Lt] negative, [Eq] zero, [Gt] positive. *)
Definition sgn (q : Qc) : comparison := (q ?= 0)%Qc.

Definition inf_of_sign (s : comparison) : float :=
  match s with Lt => NInf | Eq => NaN | Gt => PInf end.

Definition mul (x y : float) : float :=
  match x, y with
  | NaN, _ | _, NaN => NaN
  | PInf, PInf | NInf, NInf => PInf
  | PInf, NInf | NInf, PInf => NInf
  | PInf, Fin b | Fin b, PInf => inf_of_sign (sgn b)
  | NInf, Fin b | Fin b, NInf => inf_of_sign (CompOpp (sgn b))
  | Fin a, Fin b => Fin (a * b)%Qc
  end.

(** Division follows IEEE 754: a finite non-zero value over zero is an
    infinity, [0/0] and [inf/inf] are [NaN]; no exception is raised. *)
Definition div (x y : float) : float :=
  match x, y with
  | NaN, _ | _, NaN => NaN
  | (PInf | NInf), (PInf | NInf) => NaN
  | Fin _, (PInf | NInf) => Fin 0%Qc
  | PInf, Fin b => match sgn b with Lt => NInf | _ => PInf end
  | NInf, Fin b => match sgn b with Lt => PInf | _ => NInf end
  | Fin a, Fin b =>
      match sgn b with
      | Eq => inf_of_sign (sgn a)
      | _ => Fin (a / b)%Qc
      end
  end.

(** Comparisons: every comparison with [NaN] is false. *)
Definition ltb (x y : float) : bool :=
  match x, y with
  | NaN, _ | _, NaN => false
  | _, NInf => false
  | NInf, _ => true
  | PInf, _ => false
  | _, PInf => true
  | Fin a, Fin b => bool_decide (a < b)%Qc
  end.

Definition leb (x y : float) : bool :=
  match x, y with
  | NaN, _ | _, NaN => false
  | NInf, _ => true
  | _, NInf => false
  | _, PInf => true
  | PInf, _ => false
  | Fin a, Fin b => bool_decide (a ≤ b)%Qc
  end.

Definition gtb (x y : float) : bool := ltb y x.
Definition geb (x y : float) : bool := leb y x.

(** Python's built-in [max(a, b)]: [b] replaces [a] only when [b > a]. *)
Definition py_max (a b : float) : float := if gtb b a then b else a.

(** The mathematical maximum of two comparable values. *)
Definition max (a b : float) : float := if leb a b then b else a.

End Float.

Declare Scope float_scope.
Delimit Scope float_scope with float.
Bind Scope float_scope with float.
Infix "+" := Float.add : float_scope.
Infix "-" := Float.sub : float_scope.
Infix "*" := Float.mul : float_scope.
Infix "/" := Float.div : float_scope.
Infix "<?" := Float.ltb : float_scope.
Infix "<=?" := Float.leb : float_scope.
Infix ">?" := Float.gtb : float_scope.
Infix ">=?" := Float.geb : float_scope.

(** ** pandas Series: a column of values, addressed by position *)

Module Series.

(** [s.shift(n)]: the value of bar [i] moves to bar [i + n]; the bars left
    without a source hold [NaN]; the length is unchanged. *)
Definition shift (n : Z) (s : list float) : list float :=
  if decide (0 ≤ n) then
    take (length s) (replicate (Z.to_nat n) NaN ++ s)
  else
    drop (Z.to_nat (- n)) s ++ replicate (Nat.min (Z.to_nat (- n)) (length s)) NaN.

(** Element-wise arithmetic of two columns of one frame. *)
Definition sub (a b : list float) : list float := zip_with Float.sub a b.
Definition div (a b : list float) : list float := zip_with Float.div a b.
Definition mul_scalar (a : list float) (k : float) : list float :=
  (λ x, Float.mul x k) <$> a.

(** The observations of the trailing window of [w] bars that ends at bar
    [i]: bars [i-w+1 .. i], cut at the start of the series. *)
Definition window_at (s : list float) (w i : nat) : list float :=
  drop (S i - w) (take (S i) s).

(** pandas skips [NaN] observations and counts the others. *)
Definition valid (win : list float) : list float :=
  filter (λ x, x ≠ NaN) win.

Definition sum (l : list float) : float := foldl Float.add (Float.of_Z 0) l.

Definition maximum (l : list float) : float :=
  match l with
  | [] => NaN
  | x :: r => foldl (λ m y, if Float.geb y m then y else m) x r
  end.

(** A [Rolling] object: the column and the validated window. *)
Record Rolling : Type := { observations : list float; window : nat }.

(** One window of an aggregation: the result is defined only when at
    least [min_periods] ([= window], the default) observations of the
    window are not [NaN]. *)
Definition aggregate (agg : list float → float) (minp : nat) (win : list float) : float :=
  let obs := valid win in
  if decide (minp ≤ length obs ∧ 0 < length obs)%nat then agg obs else NaN.

Definition mean_of (obs : list float) : float :=
  Float.div (sum obs) (Float.of_nat (length obs)).

Definition roll (agg : list float → float) (r : Rolling) : list float :=
  (λ i, aggregate agg (window r) (window_at (observations r) (window r) i))
    <$> seq 0 (length (observations r)).

Definition mean (r : Rolling) : list float := roll mean_of r.
Definition max (r : Rolling) : list float := roll maximum r.

End Series.

(** ** Frames, results, events *)

Record date : Type := { year : nat; month : nat; day : nat }.

Global Instance date_eq_dec : EqDecision date.
Proof. solve_decision. Defined.

(** A frame: the index (one date per bar) and the named columns. *)
Record DataFrame : Type := {
  index : list date;
  columns : gmap string (list float)
}.

Global Instance DataFrame_eq_dec : EqDecision DataFrame.
Proof. solve_decision. Defined.

(** The record [analyze_ticker] returns; [High_20w] is the key ["20w_high"]. *)
Record ScanResult : Type := {
  Ticker : string;
  Date : string;
  Close : float;
  SMA_short : float;
  SMA_long : float;
  High_20w : float;
  AROC : float;
  Entry_Recommendation : float;
  Sell_Recommendation : float
}.

Global Instance ScanResult_eq_dec : EqDecision ScanResult.
Proof. solve_decision. Defined.

Inductive exn : Type :=
  | KeyError (key : string)
  | IndexError (msg : string)
  | ValueError (msg : string)
  | OtherError (msg : string)
  | StopException.

Global Instance exn_eq_dec : EqDecision exn.
Proof. solve_decision. Defined.

(** [str(e)]. *)
Definition exn_str (e : exn) : string :=
  match e with
  | KeyError k => "'" +:+ k +:+ "'"
  | IndexError m | ValueError m | OtherError m => m
  | StopException => ""
  end.

(** [except Exception] does not catch Streamlit's script-control exception. *)
Definition is_Exception (e : exn) : bool :=
  match e with StopException => false | _ => true end.

(** Observable calls, in program order: Streamlit output, and the requests
    to the outside ([ReadHtml]: a page of tables; [FetchData]: the bars of
    a ticker over a lookback in weeks). *)
Inductive event : Type :=
  | StTitle (s : string)
  | StWrite (s : string)
  | StError (s : string)
  | StWarning (s : string)
  | StInfo (s : string)
  | StSuccess (s : string)
  | StStatusText (s : string)
  | StProgress (v : float)
  | StProgressEmpty
  | StDataframe (rows : list ScanResult)
  | StDownloadButton (rows : list ScanResult)
  | ReadHtml (url : string)
  | FetchData (ticker : string) (weeks : Z).

Global Instance event_eq_dec : EqDecision event.
Proof. solve_decision. Defined.

Abbreviation loc := positive (only parsing).

Record world : Type := {
  heap : gmap loc DataFrame;
  out : list event
}.

(** ** The monad of Python code *)

Inductive outcome (A : Type) : Type :=
  | Ret (a : A)
  | Exc (e : exn).
Arguments Ret {A} a.
Arguments Exc {A} e.

Definition py (A : Type) : Type := world → outcome A * world.

Global Instance py_ret : MRet py := λ A a w, (Ret a, w).

Global Instance py_bind : MBind py := λ A B k m w,
  match m w with
  | (Ret a, w') => k a w'
  | (Exc e, w') => (Exc e, w')
  end.

Definition raise {A} (e : exn) : py A := λ w, (Exc e, w).

(** [try: m  except Exception as e: h e]. *)
Definition try_except {A} (m : py A) (h : exn → py A) : py A := λ w,
  match m w with
  | (Ret a, w') => (Ret a, w')
  | (Exc e, w') => if is_Exception e then h e w' else (Exc e, w')
  end.

(** The world after the calls [evs] have been observed. *)
Definition log (w : world) (evs : list event) : world :=
  {| heap := heap w; out := out w ++ evs |}.

Definition emit (e : event) : py unit := λ w, (Ret (), log w [e]).

(** A new frame object. *)
Definition alloc (f : DataFrame) : py loc := λ w,
  let l := fresh (dom (heap w)) in
  (Ret l, {| heap := <[l := f]> (heap w); out := out w |}).

Definition deref (df : loc) : py DataFrame := λ w,
  match heap w !! df with
  | Some f => (Ret f, w)
  | None => (Exc (OtherError "invalid reference"), w)
  end.

(** The world after the object at [df] has become [f]. *)
Definition update_object (w : world) (df : loc) (f : DataFrame) : world :=
  {| heap := <[df := f]> (heap w); out := out w |}.

Definition store (df : loc) (f : DataFrame) : py unit := λ w,
  (Ret (), update_object w df f).

(** The frame [f] with column [name] set to [col]. *)
Definition set_column (f : DataFrame) (name : string) (col : list float) : DataFrame :=
  {| index := index f; columns := <[name := col]> (columns f) |}.

(** [df[name]]. *)
Definition getitem (df : loc) (name : string) : py (list float) :=
  f ← deref df;
  match columns f !! name with
  | Some c => mret c
  | None => raise (KeyError name)
  end.

(** [df[name] = col]: the frame object itself is updated. *)
Definition setitem (df : loc) (name : string) (col : list float) : py unit :=
  f ← deref df;
  store df (set_column f name col).

(** [s.rolling(window=w)]: pandas validates the window when the object is
    built. *)
Definition window_error : exn :=
  ValueError "window must be an integer 0 or greater".

Definition rolling (s : list float) (w : Z) : py Series.Rolling :=
  if decide (w < 0) then raise window_error
  else mret {| Series.observations := s; Series.window := Z.to_nat w |}.

(** [df.empty]: an axis of length 0. *)
Definition frame_empty (f : DataFrame) : bool :=
  bool_decide (index f = []) || bool_decide (columns f = ∅).

Definition df_empty (df : loc) : py bool :=
  f ← deref df;
  mret (frame_empty f).

(** [df.iloc[-1]]: the last row, a mapping from column name to value. *)
Definition iloc_last (df : loc) : py (gmap string float) :=
  f ← deref df;
  match index f with
  | [] => raise (IndexError "single positional indexer is out-of-bounds")
  | _ => mret (omap last (columns f))
  end.

(** [row[name]]. *)
Definition row_get (row : gmap string float) (name : string) : py float :=
  match row !! name with
  | Some v => mret v
  | None => raise (KeyError name)
  end.

Definition pad0 (width : nat) (s : string) : string :=
  String.concat "" (replicate (width - String.length s) "0") +:+ s.

(** [ts.strftime("%Y-%m-%d")]. *)
Definition strftime_ymd (d : date) : string :=
  pad0 4 (pretty (year d)) +:+ "-" +:+ pad0 2 (pretty (month d)) +:+ "-"
  +:+ pad0 2 (pretty (day d)).

(** [df.index[-1].strftime("%Y-%m-%d")]. *)
Definition index_last_ymd (df : loc) : py string :=
  f ← deref df;
  match last (index f) with
  | Some d => mret (strftime_ymd d)
  | None => raise (IndexError "index -1 is out of bounds for axis 0 with size 0")
  end.

Definition st_warning (s : string) : py unit := emit (StWarning s).
Definition st_error (s : string) : py unit := emit (StError s).
Definition st_stop {A} : py A := raise StopException.

(** ** HTML tables of ticker symbols *)

(** A column label of a scraped table: a string or something else. *)
Inductive label : Type :=
  | LStr (s : string)
  | LOther (n : Z).

Global Instance label_eq_dec : EqDecision label.
Proof. solve_decision. Defined.

(** A scraped table: its columns in order, each a list of cell texts. *)
Abbreviation table := (list (label * list string)) (only parsing).

(** [pat in s] for strings. *)
Definition str_contains (pat s : string) : bool :=
  bool_decide (is_Some (String.index 0 pat s)).

(** [isinstance(col, str) and ('Ticker' in col or 'Symbol' in col)]. *)
Definition is_ticker_label (col : label) : bool :=
  match col with
  | LStr c => str_contains "Ticker" c || str_contains "Symbol" c
  | LOther _ => false
  end.

(** [df["Symbol"]] on a scraped table. *)
Fixpoint table_lookup (t : table) (name : string) : option (list string) :=
  match t with
  | [] => None
  | (c, vals) :: t' =>
      if decide (c = LStr name) then Some vals else table_lookup t' name
  end.

(** The inner loop [for col in table.columns]: the first matching column. *)
Fixpoint first_ticker_column (t : table) : option (list string) :=
  match t with
  | [] => None
  | (c, vals) :: t' =>
      if is_ticker_label c then Some vals else first_ticker_column t'
  end.

(** The outer loop [for table in tables]. *)
Fixpoint first_ticker_table (ts : list table) : option (list string) :=
  match ts with
  | [] => None
  | t :: ts' =>
      match first_ticker_column t with
      | Some vals => Some vals
      | None => first_ticker_table ts'
      end
  end.

Definition TICKERS_URL_SP500 : string :=
  "https://en.wikipedia.org/wiki/List_of_S%26P_500_companies".
Definition TICKERS_URL_NASDAQ100 : string :=
  "https://en.wikipedia.org/wiki/Nasdaq-100".
Definition DEFAULT_SMA_SHORT : Z := 20.
Definition DEFAULT_SMA_LONG : Z := 50.
Definition DEFAULT_AROC_WEEKS : Z := 20.

(** [combined = list(set(sp500 + nasdaq100)); combined.sort()]: the set
    removes duplicates, the sort orders the symbols as strings. *)
Definition combined (sp500 nasdaq100 : list string) : list string :=
  merge_sort String.le (elements (list_to_set (sp500 ++ nasdaq100) : gset string)).

(** ** Indicators *)

(** [calc_indicators]: each assignment writes a column of the frame [df]
    itself; the same reference is returned on both paths. *)
Definition calc_indicators (df : loc) (sma_short sma_long aroc_weeks : Z) : py loc :=
  try_except
    (close ← getitem df "Close";
     r ← rolling close sma_short;
     setitem df "SMA_short" (Series.mean r);;
     close ← getitem df "Close";
     r ← rolling close sma_long;
     setitem df "SMA_long" (Series.mean r);;
     let window := aroc_weeks * 5 in
     close ← getitem df "Close";
     r ← rolling close window;
     setitem df "20w_high" (Series.max r);;
     close1 ← getitem df "Close";
     close2 ← getitem df "Close";
     close3 ← getitem df "Close";
     setitem df "AROC"
       (Series.mul_scalar
          (Series.div (Series.sub close1 (Series.shift window close2))
                      (Series.shift window close3))
          (Float.of_Z 100));;
     mret df)
    (λ e,
       st_warning ("Indicator calculation error: " +:+ exn_str e);;
       mret df).

(** ** Entry signal on the latest bar *)

(** [a and b] on booleans: [b] is evaluated only when [a] is true. *)
Definition py_and (a b : py bool) : py bool :=
  x ← a; if x : bool then b else mret false.

(** The [try] block of [analyze_ticker] with its handler and the final
    [return None]: the decision on the latest row of the frame [df]. *)
Definition evaluate (ticker : string) (df : loc) (latest : gmap string float)
  : py (option ScanResult) :=
  try_except
    (entry_signal ←
       py_and (c ← row_get latest "Close"; s ← row_get latest "SMA_short";
               mret (Float.gtb c s))
      (py_and (s ← row_get latest "SMA_short"; l ← row_get latest "SMA_long";
               mret (Float.gtb s l))
      (py_and (c ← row_get latest "Close"; h ← row_get latest "20w_high";
               mret (Float.geb c (Float.mul (Float.lit 95 100) h)))
              (a ← row_get latest "AROC";
               mret (Float.gtb a (Float.of_Z 5)))));
     if entry_signal : bool then
       entry_price ← row_get latest "Close";
       sma_exit ← row_get latest "SMA_short";
       let trailing_stop_exit := Float.mul entry_price (Float.lit 93 100) in
       let sell_recommendation := Float.py_max sma_exit trailing_stop_exit in
       d ← index_last_ymd df;
       c ← row_get latest "Close";
       s ← row_get latest "SMA_short";
       l ← row_get latest "SMA_long";
       h ← row_get latest "20w_high";
       a ← row_get latest "AROC";
       mret (Some {| Ticker := ticker; Date := d; Close := c; SMA_short := s;
                     SMA_long := l; High_20w := h; AROC := a;
                     Entry_Recommendation := entry_price;
                     Sell_Recommendation := sell_recommendation |})
     else mret None)
    (λ e,
       st_warning ("Error processing " +:+ ticker +:+ ": " +:+ exn_str e);;
       mret None).

(** The sidebar widgets of one script run. *)
Record sidebar : Type := {
  selected_tickers : list string;
  sma_short_input : Z;
  sma_long_input : Z;
  aroc_weeks_input : Z;
  run_scan : bool
}.

Section Scanner.

(** The outside world: [pd.read_html url], and [yf.download ticker] over
    the last [weeks] weeks, its columns named by the first level of their
    labels (what [fetch_data] reduces a two-level header to); [inl msg]
    when the call raises an [Exception] whose text is [msg]. *)
Variable read_html : string → string + list table.
Variable yf_download : string → Z → string + DataFrame.

Definition pd_read_html (url : string) : py (list table) :=
  emit (ReadHtml url);;
  match read_html url with
  | inl msg => raise (OtherError msg)
  | inr tables => mret tables
  end.

(** The downloaded frame is a new object at every call. *)
Definition yf_download_call (ticker : string) (weeks : Z) : py loc :=
  match yf_download ticker weeks with
  | inl msg => raise (OtherError msg)
  | inr frame => alloc frame
  end.

Definition get_sp500_tickers : py (list string) :=
  try_except
    (tables ← pd_read_html TICKERS_URL_SP500;
     match tables with
     | [] => raise (IndexError "list index out of range")
     | df :: _ =>
         match table_lookup df "Symbol" with
         | Some col => mret col
         | None => raise (KeyError "Symbol")
         end
     end)
    (λ e,
       st_error ("Failed to fetch S&P 500 tickers: " +:+ exn_str e);;
       mret []).

Definition get_nasdaq100_tickers : py (list string) :=
  try_except
    (tables ← pd_read_html TICKERS_URL_NASDAQ100;
     match first_ticker_table tables with
     | Some col => mret col
     | None =>
         st_error "Could not find 'Ticker' or 'Symbol' column in Nasdaq 100 table.";;
         mret []
     end)
    (λ e,
       st_error ("Failed to fetch Nasdaq 100 tickers: " +:+ exn_str e);;
       mret []).

Definition get_all_tickers : py (list string) :=
  sp500 ← get_sp500_tickers;
  nasdaq100 ← get_nasdaq100_tickers;
  mret (combined sp500 nasdaq100).

(** [fetch_data]: [None] when the download raises.  The memoisation of
    [st.cache_data] is not represented: it returns a copy of what the
    download gave for the same arguments, which is what a download gives
    here. *)
Definition fetch_data (ticker : string) (weeks : Z) : py (option loc) :=
  emit (FetchData ticker weeks);;
  try_except
    (df ← yf_download_call ticker weeks;
     mret (Some df))
    (λ e,
       st_warning ("Error fetching data for " +:+ ticker +:+ ": " +:+ exn_str e);;
       mret None).

Definition analyze_ticker (ticker : string) (sma_short sma_long aroc_weeks : Z)
  : py (option ScanResult) :=
  df ← fetch_data ticker (aroc_weeks + 10);
  match df with
  | None => mret None
  | Some df =>
      e ← df_empty df;
      if e : bool then mret None
      else
        df ← calc_indicators df sma_short sma_long aroc_weeks;
        latest ← iloc_last df;
        evaluate ticker df latest
  end.

(** The [for] loop of [main]: [i] tickers are done, [total] is
    [len(to_scan)], [results] the list built so far. *)
Fixpoint scan_loop (sma_short sma_long aroc_weeks : Z) (total : nat)
    (i : nat) (rest : list string) (results : list ScanResult)
  : py (list ScanResult) :=
  match rest with
  | [] => mret results
  | ticker :: rest' =>
      emit (StStatusText ("Analyzing " +:+ ticker +:+ " (" +:+ pretty (i + 1)%nat
                          +:+ "/" +:+ pretty total +:+ ")..."));;
      result ← analyze_ticker ticker sma_short sma_long aroc_weeks;
      let results' :=
        match result with
        | Some r => results ++ [r]
        | None => results
        end in
      emit (StProgress (Float.div (Float.of_nat (i + 1)) (Float.of_nat total)));;
      scan_loop sma_short sma_long aroc_weeks total (S i) rest' results'
  end.

Definition main (ui : sidebar) : py unit :=
  emit (StTitle "S&P 500 & Nasdaq 100 Technical Scanner");;
  emit (StWrite "Scan S&P 500 and Nasdaq 100 stocks for bullish technical setups.");;
  tickers ← get_all_tickers;
  (if bool_decide (tickers = []) then st_stop else mret tt);;
  if run_scan ui then
    let to_scan :=
      if bool_decide (selected_tickers ui = []) then tickers
      else selected_tickers ui in
    emit (StProgress (Float.of_Z 0));;
    results ← scan_loop (sma_short_input ui) (sma_long_input ui)
                (aroc_weeks_input ui) (length to_scan) 0 to_scan [];
    emit (StStatusText "");;
    emit StProgressEmpty;;
    if bool_decide (results = []) then
      emit (StInfo "No tickers matched the criteria.")
    else
      emit (StSuccess ("Found " +:+ pretty (length results) +:+ " matching tickers."));;
      emit (StDataframe results);;
      emit (StDownloadButton results)
  else mret ().

End Scanner.

(** ** Vocabulary of the statements *)

(** The columns [calc_indicators] writes, as functions of the Close column. *)
Definition sma_column (close : list float) (w : Z) : list float :=
  Series.mean {| Series.observations := close; Series.window := Z.to_nat w |}.

Definition high_column (close : list float) (w : Z) : list float :=
  Series.max {| Series.observations := close; Series.window := Z.to_nat w |}.

Definition aroc_column (close : list float) (w : Z) : list float :=
  Series.mul_scalar
    (Series.div (Series.sub close (Series.shift w close)) (Series.shift w close))
    (Float.of_Z 100).

(** What [calc_indicators] does to the frame it is given, and the exception
    that stopped it, if any. *)
Definition indicator_steps (f : DataFrame) (sma_short sma_long aroc_weeks : Z)
  : DataFrame * option exn :=
  match columns f !! "Close" with
  | None => (f, Some (KeyError "Close"))
  | Some close =>
      if decide (sma_short < 0) then (f, Some window_error)
      else
        let f1 := set_column f "SMA_short" (sma_column close sma_short) in
        if decide (sma_long < 0) then (f1, Some window_error)
        else
          let f2 := set_column f1 "SMA_long" (sma_column close sma_long) in
          if decide (aroc_weeks * 5 < 0) then (f2, Some window_error)
          else
            let f3 := set_column f2 "20w_high" (high_column close (aroc_weeks * 5)) in
            (set_column f3 "AROC" (aroc_column close (aroc_weeks * 5)), None)
  end.

Definition indicator_warning (e : option exn) : list event :=
  match e with
  | Some e => [StWarning ("Indicator calculation error: " +:+ exn_str e)]
  | None => []
  end.

(** The sum and the arithmetic mean of Close over the bars
    [lo, lo+1, ..., lo+n-1], read by position. *)
Definition sum_over (close : list float) (lo n : nat) : float :=
  foldr (λ j acc, Float.add (close !!! j) acc) (Float.of_Z 0) (seq lo n).

Definition mean_over (close : list float) (lo n : nat) : float :=
  Float.div (sum_over close lo n) (Float.of_nat n).

(** [v] is the greatest Close of the bars [lo .. lo+n-1]. *)
Definition max_over (close : list float) (lo n : nat) (v : float) : Prop :=
  (∃ j, (lo ≤ j < lo + n)%nat ∧ close !! j = Some v) ∧
  (∀ j x, (lo ≤ j < lo + n)%nat → close !! j = Some x → Float.leb x v = true).

(** The trailing-window rule of a moving average: [col] is undefined
    before bar [window - 1] and from there on holds the mean of Close over
    the bars [i - window + 1 .. i]. *)
Definition trailing_mean (window : Z) (close col : list float) : Prop :=
  length col = length close ∧
  (∀ i : nat, (i < length close)%nat →
     (Z.of_nat i < window - 1 → col !! i = Some NaN) ∧
     (window - 1 ≤ Z.of_nat i →
      col !! i = Some (mean_over close (Z.to_nat (Z.of_nat i - window + 1))
                                 (Z.to_nat window)))) ∧
  (Z.of_nat (length close) < window → ∀ i x, col !! i = Some x → x = NaN).

(** The rolling high: undefined before bar [window - 1]; from there on the
    greatest Close of the bars [i - window + 1 .. i], or undefined when one
    of these bars has no Close. *)
Definition trailing_max (window : Z) (close col : list float) : Prop :=
  length col = length close ∧
  ∀ i : nat, (i < length close)%nat →
    (Z.of_nat i < window - 1 → col !! i = Some NaN) ∧
    (window - 1 ≤ Z.of_nat i →
     ∃ v, col !! i = Some v ∧
       let lo := Z.to_nat (Z.of_nat i - window + 1) in
       let n := Z.to_nat window in
       ((∀ j, (lo ≤ j < lo + n)%nat → close !! j ≠ Some NaN) → max_over close lo n v) ∧
       ((∃ j, (lo ≤ j < lo + n)%nat ∧ close !! j = Some NaN) → v = NaN)).

(** The rate of change over [window] bars, in percent. *)
Definition rate_of_change (window : Z) (close col : list float) : Prop :=
  length col = length close ∧
  ∀ i : nat, (i < length close)%nat →
    (Z.of_nat i < window → col !! i = Some NaN) ∧
    (window ≤ Z.of_nat i →
     let now := close !!! i in
     let before := close !!! Z.to_nat (Z.of_nat i - window) in
     col !! i = Some (Float.mul (Float.div (Float.sub now before) before)
                                (Float.of_Z 100))).


(** The composite entry condition on Close, SMA_short, SMA_long, the
    rolling high and AROC. *)
Definition entry_condition (c s l h a : float) : Prop :=
  Float.gtb c s = true ∧ Float.gtb s l = true ∧
  Float.geb c (Float.mul (Float.lit 95 100) h) = true ∧
  Float.gtb a (Float.of_Z 5) = true.

(** The fetches among observed calls, in order: ticker and lookback. *)
Definition fetches (evs : list event) : list (string * Z) :=
  omap (λ e, match e with FetchData t weeks => Some (t, weeks) | _ => None end) evs.

Definition empty_world : world := {| heap := ∅; out := [] |}.

(** The result of analysing one ticker on its own, from a fresh start:
    [None] also stands for a failed fetch and an empty series. *)
Definition ticker_outcome (yf_download : string → Z → string + DataFrame)
    (sma_short sma_long aroc_weeks : Z) (ticker : string) : option ScanResult :=
  match (analyze_ticker yf_download ticker sma_short sma_long aroc_weeks empty_world).1 with
  | Ret o => o
  | Exc _ => None
  end.

(** ** Concrete inputs *)

(** Daily bars from 2024-01-01 on, with the given closes. *)
Definition bars (closes : list Z) : DataFrame :=
  {| index := (λ i, {| year := 2024; month := 1; day := S i |}) <$> seq 0 (length closes);
     columns := {[ "Close" := Float.of_Z <$> closes ]} |}.

Definition rising : list Z := [100; 101; 102; 103; 104; 110; 120].

Definition rising_world : world :=
  {| heap := {[ 1%positive := bars rising ]}; out := [] |}.

(** A frame that already carries the derived columns; its only bar has
    Close 100, SMA_short 90, SMA_long 80, rolling high 100 and AROC 10. *)
Definition signal_frame : DataFrame :=
  {| index := [{| year := 2024; month := 3; day := 7 |}];
     columns := {[ "Close" := [Float.of_Z 100]; "SMA_short" := [Float.of_Z 90];
                   "SMA_long" := [Float.of_Z 80]; "20w_high" := [Float.of_Z 100];
                   "AROC" := [Float.of_Z 10] ]} |}.

Definition signal_world : world :=
  {| heap := {[ 1%positive := signal_frame ]}; out := [] |}.

Definition signal_row : gmap string float := omap last (columns signal_frame).

(** A market of four symbols: one rises, one is flat, one has no bars and
    one lacks the Close column; the download of any other symbol fails. *)
Definition market (ticker : string) (weeks : Z) : string + DataFrame :=
  if decide (ticker = "UP") then inr (bars rising)
  else if decide (ticker = "FLAT") then inr (bars [50; 50; 50; 50; 50; 50; 50])
  else if decide (ticker = "NONE") then inr (bars [])
  else if decide (ticker = "BAD") then
    inr {| index := index (bars rising); columns := {[ "Open" := Float.of_Z <$> rising ]} |}
  else inl "No data found, symbol may be delisted".

(** ** Vocabulary of the further properties *)

(** [vals] is the first column of table [t] whose label satisfies [P]. *)
Definition first_column (P : label → bool) (t : table) (vals : list string) : Prop :=
  ∃ j c, t !! j = Some (c, vals) ∧ P c = true ∧
         ∀ j' c' vals', (j' < j)%nat → t !! j' = Some (c', vals') → P c' = false.

(** No column of table [t] has a label that satisfies [P]. *)
Definition no_column (P : label → bool) (t : table) : Prop :=
  ∀ j c vals, t !! j = Some (c, vals) → P c = false.

(** Pages of tables as Wikipedia serves them: the constituents table comes
    first for the S&P 500 and second for the Nasdaq-100. *)
Definition wiki (url : string) : string + list table :=
  if decide (url = TICKERS_URL_SP500) then
    inr [[(LStr "Symbol", ["UP"; "ZZZ"; "FLAT"]);
          (LStr "Security", ["Up Corp."; "Zed Inc."; "Flat Ltd."])]]
  else if decide (url = TICKERS_URL_NASDAQ100) then
    inr [[(LOther 0, ["x"]); (LStr "Year", ["2024"])];
         [(LStr "Company", ["None Inc."; "Up Corp."]); (LStr "Ticker", ["NONE"; "UP"])]]
  else inl "HTTP Error 404: Not Found".



(** The value of column [name] at bar [i] of the frame behind [df]. *)
Definition cell (w : world) (df : loc) (name : string) (i : nat) : option float :=
  f ← heap w !! df; col ← columns f !! name; col !! i.

(** Every column of the frame has one value per bar. *)
Definition rectangular (f : DataFrame) : Prop :=
  ∀ name col, columns f !! name = Some col → length col = length (index f).

(** The status lines and the progress values among observed calls. *)
Definition statuses (evs : list event) : list string :=
  omap (λ e, match e with StStatusText t => Some t | _ => None end) evs.



(** What [main] shows once the loop is over. *)
Definition report (results : list ScanResult) : list event :=
  [StStatusText ""; StProgressEmpty] ++
  if bool_decide (results = []) then [StInfo "No tickers matched the criteria."]
  else [StSuccess ("Found " +:+ pretty (length results) +:+ " matching tickers.");
        StDataframe results; StDownloadButton results].

(** A series that follows [rising] for six bars and then falls. *)
Definition turning : list Z := [100; 101; 102; 103; 104; 110; 99; 98].

Definition turning_world : world :=
  {| heap := {[ 5%positive := bars turning ]}; out := [] |}.


(** The sidebar left as it is, with the button pressed or not. *)
Definition defaults (pressed : bool) : sidebar :=
  {| selected_tickers := []; sma_short_input := 2; sma_long_input := 3;
     aroc_weeks_input := 1; run_scan := pressed |}.

(** The world once [main] has shown its title and its text. *)
Definition titled : world :=
  log (log empty_world [StTitle "S&P 500 & Nasdaq 100 Technical Scanner"])
      [StWrite "Scan S&P 500 and Nasdaq 100 stocks for bullish technical setups."].

(** * Properties *)

(** ** Running monadic code *)

Lemma getitem_some w df f name c :
  heap w !! df = Some f → columns f !! name = Some c →
  getitem df name w = (Ret c, w).
Proof. intros Hf Hc. unfold getitem, deref, mbind, py_bind. by rewrite Hf, Hc. Qed.

Lemma getitem_none w df f name :
  heap w !! df = Some f → columns f !! name = None →
  getitem df name w = (Exc (KeyError name), w).
Proof. intros Hf Hc. unfold getitem, deref, mbind, py_bind. by rewrite Hf, Hc. Qed.

Lemma setitem_some w df f name col :
  heap w !! df = Some f →
  setitem df name col w = (Ret (), update_object w df (set_column f name col)).
Proof. intros Hf. unfold setitem, deref, mbind, py_bind. by rewrite Hf. Qed.

Lemma heap_update_object w df f : heap (update_object w df f) !! df = Some f.
Proof. apply lookup_insert_eq. Qed.

Lemma update_object_twice w df f g :
  update_object (update_object w df f) df g = update_object w df g.
Proof. unfold update_object. simpl. by rewrite insert_insert_eq. Qed.

Lemma update_object_id w df f : heap w !! df = Some f → update_object w df f = w.
Proof. intros H. destruct w. unfold update_object. simpl in *. by rewrite insert_id. Qed.

Lemma log_nil w : log w [] = w.
Proof. destruct w. unfold log. simpl. by rewrite app_nil_r. Qed.

Lemma log_update_object w df f evs :
  log (update_object w df f) evs = update_object (log w evs) df f.
Proof. done. Qed.

(** ** What [calc_indicators] does *)

Lemma calc_indicators_run w df f sma_short sma_long aroc_weeks :
  heap w !! df = Some f →
  calc_indicators df sma_short sma_long aroc_weeks w =
    (Ret df,
     log (update_object w df (indicator_steps f sma_short sma_long aroc_weeks).1)
         (indicator_warning (indicator_steps f sma_short sma_long aroc_weeks).2)).
Proof.
  intros Hf. unfold calc_indicators, indicator_steps, try_except, mbind, py_bind.
  destruct (columns f !! "Close") as [close|] eqn:Hc.
  2:{ rewrite (getitem_none _ _ _ _ Hf Hc). simpl.
      by rewrite (update_object_id _ _ _ Hf). }
  rewrite (getitem_some _ _ _ _ _ Hf Hc). unfold rolling.
  destruct (decide (sma_short < 0)).
  { simpl. by rewrite (update_object_id _ _ _ Hf). }
  unfold mret, py_ret. rewrite (setitem_some _ _ _ _ _ Hf).
  set (f1 := set_column f "SMA_short" _).
  assert (H1 : columns f1 !! "Close" = Some close) by (by subst f1; simpl; rewrite lookup_insert_ne).
  rewrite (getitem_some _ _ f1 _ _ (heap_update_object _ _ _) H1).
  destruct (decide (sma_long < 0)); [done|].
  rewrite (setitem_some _ _ _ _ _ (heap_update_object _ _ _)), update_object_twice.
  set (f2 := set_column f1 "SMA_long" _).
  assert (H2 : columns f2 !! "Close" = Some close) by (by subst f2; simpl; rewrite lookup_insert_ne).
  rewrite (getitem_some _ _ f2 _ _ (heap_update_object _ _ _) H2).
  destruct (decide (aroc_weeks * 5 < 0)); [done|].
  rewrite (setitem_some _ _ _ _ _ (heap_update_object _ _ _)), update_object_twice.
  set (f3 := set_column f2 "20w_high" _).
  assert (H3 : columns f3 !! "Close" = Some close) by (by subst f3; simpl; rewrite lookup_insert_ne).
  rewrite !(getitem_some _ _ f3 _ _ (heap_update_object _ _ _) H3).
  rewrite (setitem_some _ _ _ _ _ (heap_update_object _ _ _)), update_object_twice.
  simpl. by rewrite log_nil.
Qed.

(** ** Arithmetic and order of [float] *)

Lemma float_add_comm x y : Float.add x y = Float.add y x.
Proof. destruct x, y; simpl; try done. f_equal. ring. Qed.

Lemma float_add_assoc x y z :
  Float.add x (Float.add y z) = Float.add (Float.add x y) z.
Proof. destruct x, y, z; simpl; try done. f_equal. ring. Qed.

Lemma float_add_0_l x : Float.add (Float.of_Z 0) x = x.
Proof.
  destruct x; simpl; try done. f_equal.
  change (Q2Qc (inject_Z 0)) with 0%Qc. ring.
Qed.

Lemma float_mul_comm x y : Float.mul x y = Float.mul y x.
Proof. destruct x, y; simpl; try done. f_equal. ring. Qed.

Lemma float_leb_refl x : x ≠ NaN → Float.leb x x = true.
Proof. destruct x; simpl; try done. intros _. by apply bool_decide_eq_true. Qed.

Lemma float_leb_trans x y z :
  Float.leb x y = true → Float.leb y z = true → Float.leb x z = true.
Proof.
  destruct x, y, z; simpl; try done.
  rewrite !bool_decide_eq_true. apply Qcle_trans.
Qed.

Lemma float_leb_total x y :
  x ≠ NaN → y ≠ NaN → Float.leb x y = true ∨ Float.leb y x = true.
Proof.
  destruct x, y; simpl; try done; auto.
  intros _ _. rewrite !bool_decide_eq_true.
  destruct (Qclt_le_dec q q0); [left; by apply Qclt_le_weak | by right].
Qed.

Lemma float_leb_nan x y : Float.leb x y = true → x ≠ NaN ∧ y ≠ NaN.
Proof. by destruct x, y. Qed.

Lemma float_ltb_nan x y : Float.ltb x y = true → x ≠ NaN ∧ y ≠ NaN.
Proof. by destruct x, y. Qed.

(** ** Windows of a column *)

Section series.
Local Open Scope nat_scope.
Implicit Types (s win : list float) (w i : nat).

Lemma length_roll agg r :
  length (Series.roll agg r) = length (Series.observations r).
Proof. unfold Series.roll. by rewrite length_fmap, length_seq. Qed.

Lemma roll_lookup agg r i :
  i < length (Series.observations r) →
  Series.roll agg r !! i =
    Some (Series.aggregate agg (Series.window r)
            (Series.window_at (Series.observations r) (Series.window r) i)).
Proof.
  intros Hi. unfold Series.roll.
  by rewrite list_lookup_fmap, lookup_seq_lt.
Qed.

Lemma length_window_at s w i :
  i < length s → length (Series.window_at s w i) = Nat.min w (S i).
Proof.
  intros Hi. unfold Series.window_at.
  rewrite length_drop, length_take. lia.
Qed.

(** A full window holds exactly the bars [i-w+1 .. i]. *)
Lemma window_at_full s w i :
  i < length s → w ≤ S i →
  Series.window_at s w i = (λ j, s !!! j) <$> seq (S i - w) w.
Proof.
  intros Hi Hw. apply list_eq. intros k. unfold Series.window_at.
  rewrite lookup_drop, list_lookup_fmap.
  destruct (decide (k < w)) as [Hk|Hk].
  - rewrite lookup_take_lt by lia. rewrite lookup_seq_lt by done. simpl.
    destruct (lookup_lt_is_Some_2 s (S i - w + k)) as [x Hx]; [lia|].
    rewrite Hx. f_equal. symmetry. by apply list_lookup_total_correct.
  - rewrite lookup_take_ge by lia. by rewrite lookup_seq_ge by lia.
Qed.

Lemma aggregate_short agg w win :
  length win < w → Series.aggregate agg w win = NaN.
Proof.
  intros Hl. unfold Series.aggregate.
  pose proof (length_filter (λ x, x ≠ NaN) win) as Hle.
  unfold Series.valid. case_decide; [lia|done].
Qed.

Lemma aggregate_nan agg w win :
  length win = w → NaN ∈ win → Series.aggregate agg w win = NaN.
Proof.
  intros Hl Hin. unfold Series.aggregate, Series.valid.
  pose proof (length_filter_lt (λ x, x ≠ NaN) win NaN Hin) as Hlt.
  case_decide; [|done]. exfalso. apply (Nat.lt_irrefl w).
  eapply Nat.le_lt_trans; [apply H|]. rewrite <-Hl. apply Hlt. by intros ?.
Qed.

Lemma valid_id win : NaN ∉ win → Series.valid win = win.
Proof.
  unfold Series.valid. induction win as [|x win IH]; [done|].
  intros Hn. rewrite filter_cons_True.
  - f_equal. apply IH. intros ?. apply Hn. by right.
  - intros ->. apply Hn. by left.
Qed.

Lemma aggregate_full agg w win :
  length win = w → 0 < w → NaN ∉ win →
  Series.aggregate agg w win = agg win.
Proof.
  intros Hl Hw Hn. unfold Series.aggregate. rewrite (valid_id _ Hn).
  case_decide; [done|lia].
Qed.

Lemma foldl_add_shift win a b :
  foldl Float.add (Float.add a b) win = Float.add a (foldl Float.add b win).
Proof.
  revert b. induction win as [|x win IH]; intros b; simpl; [done|].
  by rewrite <-float_add_assoc, IH.
Qed.

Lemma sum_foldr win :
  Series.sum win = foldr Float.add (Float.of_Z 0) win.
Proof.
  unfold Series.sum. induction win as [|x win IH]; cbn [foldl foldr]; [done|].
  by rewrite float_add_comm, foldl_add_shift, IH.
Qed.

Lemma sum_nan win : NaN ∈ win → Series.sum win = NaN.
Proof.
  rewrite sum_foldr. induction win as [|x win IH]; simpl.
  - by intros ?%elem_of_nil.
  - intros [<-|Hin]%elem_of_cons; [done|].
    rewrite (IH Hin). by destruct x.
Qed.

Lemma sum_window_full s w i :
  i < length s → w ≤ S i →
  Series.sum (Series.window_at s w i) = sum_over s (S i - w) w.
Proof.
  intros Hi Hw. rewrite sum_foldr, window_at_full by done.
  unfold sum_over. by rewrite foldr_fmap.
Qed.

(** The rolling mean of a full window is the mean of its bars, whether or
    not some of them are [NaN]. *)
Lemma mean_window_full s w i :
  i < length s → 0 < w → w ≤ S i →
  Series.aggregate Series.mean_of w (Series.window_at s w i)
  = mean_over s (S i - w) w.
Proof.
  intros Hi H0 Hw.
  assert (Hl : length (Series.window_at s w i) = w)
    by (rewrite length_window_at by done; lia).
  unfold mean_over. rewrite <-sum_window_full by done.
  destruct (decide (NaN ∈ Series.window_at s w i)) as [Hn|Hn].
  - rewrite aggregate_nan, sum_nan by done. done.
  - rewrite aggregate_full by done. unfold Series.mean_of. by rewrite Hl.
Qed.

End series.

(** ** The three kinds of column *)

Section columns.
Implicit Types (close s : list float).

Lemma sma_column_trailing_mean close window :
  0 < window → trailing_mean window close (sma_column close window).
Proof.
  intros Hw. unfold sma_column, Series.mean.
  split; [by rewrite length_roll|]. split.
  - intros i Hi. rewrite roll_lookup by done. simpl. split; intros Hiw.
    + f_equal. apply aggregate_short. rewrite length_window_at by done. lia.
    + f_equal. rewrite mean_window_full by (done || lia).
      f_equal. lia.
  - intros Hlen i x Hx. pose proof (lookup_lt_Some _ _ _ Hx) as Hi.
    rewrite length_roll in Hi. simpl in Hi.
    rewrite roll_lookup in Hx by done. simpl in Hx.
    rewrite aggregate_short in Hx by (rewrite length_window_at by done; lia).
    congruence.
Qed.

(** The running maximum of a list without [NaN]. *)
Lemma fold_max_spec r x :
  NaN ∉ x :: r →
  let v := foldl (λ m y, if Float.geb y m then y else m) x r in
  v ∈ x :: r ∧ ∀ y, y ∈ x :: r → Float.leb y v = true.
Proof.
  revert x. induction r as [|y r IH]; intros x Hn; simpl.
  - split; [by left|]. intros z ->%list_elem_of_singleton.
    apply float_leb_refl. intros ->. apply Hn. by left.
  - assert (Hx : x ≠ NaN) by (intros ->; apply Hn; by left).
    assert (Hy : y ≠ NaN) by (intros ->; apply Hn; right; by left).
    set (m := if Float.geb y x then y else x).
    assert (Hm : (m = x ∨ m = y) ∧ Float.leb x m = true ∧ Float.leb y m = true).
    { subst m. unfold Float.geb. destruct (Float.leb x y) eqn:Hxy.
      - split; [by right|]. split; [done|]. by apply float_leb_refl.
      - split; [by left|]. split; [by apply float_leb_refl|].
        destruct (float_leb_total x y Hx Hy); congruence. }
    destruct Hm as (Hm & Hxm & Hym).
    destruct (IH m) as [Hin Hle].
    { intros [Heq|Hin]%elem_of_cons.
      - destruct Hm; congruence.
      - apply Hn. right. by right. }
    split.
    + apply elem_of_cons in Hin as [Hin|Hin].
      * rewrite Hin. destruct Hm as [->| ->]; [by left|right; by left].
      * right. by right.
    + intros z [->|[->|Hz]%elem_of_cons]%elem_of_cons.
      * eapply float_leb_trans; [exact Hxm|]. apply Hle. by left.
      * eapply float_leb_trans; [exact Hym|]. apply Hle. by left.
      * apply Hle. by right.
Qed.

Lemma window_elem_of s w i v :
  (i < length s)%nat → (w ≤ S i)%nat →
  v ∈ Series.window_at s w i ↔ ∃ j, (S i - w ≤ j < S i - w + w)%nat ∧ s !! j = Some v.
Proof.
  intros Hi Hw. rewrite window_at_full by done. rewrite list_elem_of_fmap.
  split.
  - intros (j & -> & Hj). apply elem_of_seq in Hj. exists j. split; [lia|].
    apply list_lookup_lookup_total_lt. lia.
  - intros (j & Hj & Hv). exists j. split.
    + symmetry. by apply list_lookup_total_correct.
    + apply elem_of_seq. lia.
Qed.

Lemma high_column_trailing_max close window :
  0 < window → trailing_max window close (high_column close window).
Proof.
  intros Hw. unfold high_column, Series.max.
  split; [by rewrite length_roll|].
  intros i Hi. rewrite roll_lookup by done. simpl. split; intros Hiw.
  - f_equal. apply aggregate_short. rewrite length_window_at by done. lia.
  - eexists. split; [done|].
    replace (Z.to_nat (Z.of_nat i - window + 1)) with (S i - Z.to_nat window)%nat by lia.
    set (w := Z.to_nat window) in *.
    assert (Hwi : (w ≤ S i)%nat) by lia.
    assert (Hl : length (Series.window_at close w i) = w)
      by (rewrite length_window_at by done; lia).
    split.
    + intros Hnn.
      assert (Hn : NaN ∉ Series.window_at close w i).
      { intros (j & Hj & Hv)%window_elem_of; [|done..]. by apply (Hnn j). }
      rewrite aggregate_full by (done || lia).
      destruct (Series.window_at close w i) as [|x r] eqn:Hwin.
      { simpl in Hl. lia. }
      destruct (fold_max_spec r x Hn) as [Hin Hle]. simpl.
      rewrite <-Hwin in Hin, Hle. split.
      * by apply window_elem_of in Hin.
      * intros j y Hj Hy. apply Hle. apply window_elem_of; [done..|]. eauto.
    + intros (j & Hj & Hv). apply aggregate_nan; [done|].
      apply window_elem_of; [done..|]. eauto.
Qed.

Lemma length_shift n s : length (Series.shift n s) = length s.
Proof.
  unfold Series.shift. case_decide.
  - rewrite length_take, length_app, length_replicate. lia.
  - rewrite length_app, length_drop, length_replicate. lia.
Qed.

Lemma shift_lookup n s i :
  0 ≤ n → (i < length s)%nat →
  Series.shift n s !! i =
    Some (if decide (Z.of_nat i < n) then NaN else s !!! Z.to_nat (Z.of_nat i - n)).
Proof.
  intros Hn Hi. unfold Series.shift. rewrite decide_True by done.
  rewrite lookup_take_lt by done. case_decide.
  - rewrite lookup_app_l by (rewrite length_replicate; lia).
    apply lookup_replicate_2. lia.
  - rewrite lookup_app_r by (rewrite length_replicate; lia).
    rewrite length_replicate.
    replace (Z.to_nat (Z.of_nat i - n)) with (i - Z.to_nat n)%nat by lia.
    apply list_lookup_lookup_total_lt. lia.
Qed.

Lemma aroc_column_rate_of_change close window :
  0 ≤ window → rate_of_change window close (aroc_column close window).
Proof.
  intros Hw. unfold aroc_column, Series.mul_scalar, Series.div, Series.sub.
  split.
  { rewrite length_fmap, !length_zip_with, !length_shift. lia. }
  intros i Hi.
  rewrite list_lookup_fmap, !lookup_zip_with, shift_lookup by done.
  rewrite (list_lookup_lookup_total_lt close i Hi). simpl.
  split; intros Hiw.
  - rewrite decide_True by done. by destruct (close !!! i).
  - by rewrite decide_False by lia.
Qed.

End columns.

(** ** The frame after [calc_indicators] *)

Lemma calc_indicators_heap w df f sma_short sma_long aroc_weeks :
  heap w !! df = Some f →
  heap (calc_indicators df sma_short sma_long aroc_weeks w).2 !! df
  = Some (indicator_steps f sma_short sma_long aroc_weeks).1.
Proof.
  intros Hf. rewrite (calc_indicators_run _ _ _ _ _ _ Hf). simpl.
  apply lookup_insert_eq.
Qed.

Lemma indicator_steps_all f close sma_short sma_long aroc_weeks :
  columns f !! "Close" = Some close →
  0 ≤ sma_short → 0 ≤ sma_long → 0 ≤ aroc_weeks →
  indicator_steps f sma_short sma_long aroc_weeks =
    (set_column
       (set_column
          (set_column
             (set_column f "SMA_short" (sma_column close sma_short))
             "SMA_long" (sma_column close sma_long))
          "20w_high" (high_column close (aroc_weeks * 5)))
       "AROC" (aroc_column close (aroc_weeks * 5)), None).
Proof.
  intros Hc H1 H2 H3. unfold indicator_steps. rewrite Hc.
  by rewrite !decide_False by lia.
Qed.



(** The frame keeps its index and every column but the four derived ones. *)
Lemma indicator_steps_frame f sma_short sma_long aroc_weeks :
  index (indicator_steps f sma_short sma_long aroc_weeks).1 = index f ∧
  ∀ name, name ∉ ["SMA_short"; "SMA_long"; "20w_high"; "AROC"] →
    columns (indicator_steps f sma_short sma_long aroc_weeks).1 !! name
    = columns f !! name.
Proof.
  unfold indicator_steps. split.
  - repeat case_match; done.
  - intros name Hn.
    assert (name ≠ "SMA_short" ∧ name ≠ "SMA_long" ∧ name ≠ "20w_high" ∧ name ≠ "AROC")
      as (? & ? & ? & ?).
    { repeat split; intros ->; apply Hn; repeat constructor. }
    repeat case_match; simpl; by simplify_map_eq.
Qed.

Lemma indicator_steps_close f sma_short sma_long aroc_weeks :
  columns (indicator_steps f sma_short sma_long aroc_weeks).1 !! "Close"
  = columns f !! "Close".
Proof.
  apply indicator_steps_frame. intros Hin.
  repeat (apply elem_of_cons in Hin as [?|Hin]; [done|]).
  by apply elem_of_nil in Hin.
Qed.



(** C4. After [calc_indicators] with positive windows on a frame with a
    Close column, column AROC at bar [i] is undefined when
    [i < aroc_weeks * 5] and otherwise equals
    [(close[i] - close[i-window]) / close[i-window] * 100], exactly. *)
Theorem aroc_rate_of_change w df f close sma_short sma_long aroc_weeks :
  heap w !! df = Some f →
  columns f !! "Close" = Some close →
  0 < sma_short → 0 < sma_long → 0 < aroc_weeks →
  ∃ f' aroc,
    heap (calc_indicators df sma_short sma_long aroc_weeks w).2 !! df = Some f' ∧
    columns f' !! "AROC" = Some aroc ∧
    rate_of_change (aroc_weeks * 5) close aroc.
Proof.
  intros Hf Hc H1 H2 H3. eexists _, _.
  split; [by apply calc_indicators_heap|].
  rewrite (indicator_steps_all _ _ _ _ _ Hc) by lia. simpl.
  split; [by simplify_map_eq|].
  apply aroc_column_rate_of_change. lia.
Qed.


(** ** The decision on the latest bar *)

Ltac unfold_evaluate :=
  unfold evaluate, try_except, py_and, row_get, index_last_ymd, deref,
    st_warning, emit, raise, mbind, py_bind, mret, py_ret.

Ltac split_comparisons :=
  repeat match goal with
    | |- context [Float.gtb ?x ?y] => destruct (Float.gtb x y) eqn:?
    | |- context [Float.geb ?x ?y] => destruct (Float.geb x y) eqn:?
    end.

(** [evaluate] returns, whatever the row. *)
Lemma evaluate_returns ticker df latest w :
  ∃ o w', evaluate ticker df latest w = (Ret o, w').
Proof.
  unfold_evaluate.
  destruct (latest !! "Close"); destruct (latest !! "SMA_short");
    destruct (latest !! "SMA_long"); destruct (latest !! "20w_high");
    destruct (latest !! "AROC"); split_comparisons; cbn [is_Exception];
    eauto;
    (destruct (heap w !! df) as [f'|]; [destruct (last (index f'))|]);
    cbn [is_Exception]; eauto.
Qed.

(** A result is returned only from a row that has the five values. *)
Lemma evaluate_Some ticker df latest w w' r :
  evaluate ticker df latest w = (Ret (Some r), w') →
  ∃ f d c s l h a,
    w' = w ∧ heap w !! df = Some f ∧ last (index f) = Some d ∧
    latest !! "Close" = Some c ∧ latest !! "SMA_short" = Some s ∧
    latest !! "SMA_long" = Some l ∧ latest !! "20w_high" = Some h ∧
    latest !! "AROC" = Some a ∧
    entry_condition c s l h a ∧
    r = {| Ticker := ticker; Date := strftime_ymd d; Close := c;
           SMA_short := s; SMA_long := l; High_20w := h; AROC := a;
           Entry_Recommendation := c;
           Sell_Recommendation :=
             Float.py_max s (Float.mul c (Float.lit 93 100)) |}.
Proof.
  unfold_evaluate.
  destruct (latest !! "Close"); destruct (latest !! "SMA_short");
    destruct (latest !! "SMA_long"); destruct (latest !! "20w_high");
    destruct (latest !! "AROC"); split_comparisons; cbn [is_Exception];
    try discriminate;
    (destruct (heap w !! df) as [f'|]; [destruct (last (index f')) eqn:?|]);
    cbn [is_Exception]; intros [= <- <-];
    eexists _, _, _, _, _, _, _; unfold entry_condition; repeat split; done.
Qed.



Lemma float_mul_nan_r x : Float.mul x NaN = NaN.
Proof. by destruct x. Qed.

Lemma entry_condition_defined c s l h a :
  entry_condition c s l h a →
  c ≠ NaN ∧ s ≠ NaN ∧ l ≠ NaN ∧ h ≠ NaN ∧ a ≠ NaN.
Proof.
  unfold entry_condition, Float.gtb, Float.geb.
  intros ([Hs Hc]%float_ltb_nan & [Hl _]%float_ltb_nan
          & [Hh _]%float_leb_nan & [_ Ha]%float_ltb_nan).
  repeat split; try done. intros ->. by rewrite float_mul_nan_r in Hh.
Qed.




Lemma py_max_is_max a b :
  a ≠ NaN → b ≠ NaN → Float.py_max a b = Float.max a b.
Proof.
  unfold Float.py_max, Float.max, Float.gtb.
  destruct a as [| | |p], b as [| | |q]; simpl; try done. intros _ _.
  destruct (decide (p < q)%Qc) as [Hlt|Hlt], (decide (p ≤ q)%Qc) as [Hle|Hle];
    rewrite ?(bool_decide_eq_true_2 _ Hlt), ?(bool_decide_eq_false_2 _ Hlt),
      ?(bool_decide_eq_true_2 _ Hle), ?(bool_decide_eq_false_2 _ Hle); try done.
  - destruct Hle. by apply Qclt_le_weak.
  - f_equal. apply Qcle_antisym; [done|by apply Qcnot_lt_le].
Qed.

Lemma trailing_stop_defined c : c ≠ NaN → Float.mul c (Float.lit 93 100) ≠ NaN.
Proof. by destruct c. Qed.

(** C2. Whenever [evaluate] returns a result, its entry price is the Close
    of the latest row and its sell recommendation is the maximum of
    SMA_short and 0.93 * Close; with Close = 100 this is 93 for
    SMA_short = 90 and 96 for SMA_short = 96. *)
Theorem sell_recommendation_max ticker df latest w w' r :
  evaluate ticker df latest w = (Ret (Some r), w') →
  latest !! "Close" = Some (Close r) ∧
  latest !! "SMA_short" = Some (SMA_short r) ∧
  Entry_Recommendation r = Close r ∧
  Sell_Recommendation r
    = Float.max (SMA_short r) (Float.mul (Float.lit 93 100) (Close r)) ∧
  (Close r = Float.of_Z 100 → SMA_short r = Float.of_Z 90 →
   Sell_Recommendation r = Float.of_Z 93) ∧
  (Close r = Float.of_Z 100 → SMA_short r = Float.of_Z 96 →
   Sell_Recommendation r = Float.of_Z 96).
Proof.
  intros (f & d & c & s & l & h & a & _ & _ & _ & Hc & Hs & _ & _ & _ & Hcond & ->)
    %evaluate_Some.
  apply entry_condition_defined in Hcond as (Hcn & Hsn & _).
  cbn [Close SMA_short Entry_Recommendation Sell_Recommendation].
  repeat split; try done.
  - rewrite (float_mul_comm _ c). apply py_max_is_max; [done|].
    by apply trailing_stop_defined.
  - intros -> ->. compute_done.
  - intros -> ->. compute_done.
Qed.

(** ** Bounds of the sell recommendation *)



Lemma of_nat_not_negative n : Float.sgn (Q2Qc (inject_Z (Z.of_nat n))) ≠ Lt.
Proof.
  unfold Float.sgn. intros H. apply Qclt_alt in H.
  unfold Qclt in H. simpl in H. rewrite Qred_correct in H.
  change (Qred 0) with 0%Q in H. unfold Qlt in H. simpl in H. lia.
Qed.

Lemma sum_inf l :
  PInf ∈ l → Series.sum l = NaN ∨ Series.sum l = PInf.
Proof.
  rewrite sum_foldr. induction l as [|x l IH]; cbn [foldr].
  - by intros ?%elem_of_nil.
  - intros [<-|Hin]%elem_of_cons.
    + destruct (foldr Float.add (Float.of_Z 0) l); cbn; auto.
    + destruct (IH Hin) as [-> | ->]; destruct x; cbn; auto.
Qed.

Lemma aggregate_mean_inf minp win :
  PInf ∈ win →
  Series.aggregate Series.mean_of minp win = NaN ∨
  Series.aggregate Series.mean_of minp win = PInf.
Proof.
  intros Hin. unfold Series.aggregate. case_decide; [|by left].
  assert (Hv : PInf ∈ Series.valid win) by (by apply list_elem_of_filter).
  unfold Series.mean_of, Float.of_nat, Float.of_Z.
  destruct (sum_inf _ Hv) as [-> | ->]; [by left|]. cbn [Float.div].
  pose proof (of_nat_not_negative (length (Series.valid win))).
  destruct (Float.sgn _); [by right|done|by right].
Qed.

(** The last bar lies in its own window. *)
Lemma last_in_window close w c :
  (0 < w)%nat → last close = Some c →
  c ∈ Series.window_at close w (pred (length close)).
Proof.
  intros Hw Hl. rewrite last_lookup in Hl.
  pose proof (lookup_lt_Some _ _ _ Hl) as Hn.
  unfold Series.window_at.
  apply (list_elem_of_lookup_2 _ (pred (length close) - (S (pred (length close)) - w))).
  rewrite lookup_drop, lookup_take_lt by lia.
  rewrite <-Hl. f_equal. lia.
Qed.

Lemma sma_last_inf close window s :
  0 < window → last close = Some PInf →
  last (sma_column close window) = Some s → s = NaN ∨ s = PInf.
Proof.
  intros Hw Hc Hs. rewrite last_lookup in Hs.
  unfold sma_column, Series.mean in Hs. rewrite length_roll in Hs. simpl in Hs.
  pose proof Hc as Hc'. rewrite last_lookup in Hc'.
  pose proof (lookup_lt_Some _ _ _ Hc') as Hn.
  rewrite roll_lookup in Hs by done. simpl in Hs. injection Hs as <-.
  apply aggregate_mean_inf. apply last_in_window; [lia|done].
Qed.

(** ** One ticker *)

Lemma log_app w evs1 evs2 : log (log w evs1) evs2 = log w (evs1 ++ evs2).
Proof. unfold log. simpl. by rewrite app_assoc. Qed.

Lemma df_empty_run w df f :
  heap w !! df = Some f → df_empty df w = (Ret (frame_empty f), w).
Proof. intros Hf. unfold df_empty, deref, mbind, py_bind. by rewrite Hf. Qed.

Lemma frame_empty_index f : frame_empty f = false → index f ≠ [].
Proof.
  unfold frame_empty. intros [H _]%orb_false_iff.
  by apply bool_decide_eq_false in H.
Qed.

Lemma iloc_last_run w df f :
  heap w !! df = Some f → index f ≠ [] →
  iloc_last df w = (Ret (omap last (columns f)), w).
Proof.
  intros Hf Hi. unfold iloc_last, deref, mbind, py_bind. rewrite Hf.
  by destruct (index f).
Qed.

(** The decision depends on the frame, not on where it lives; the only
    calls it makes are warnings. *)
Lemma evaluate_local ticker latest df1 w1 df2 w2 f :
  heap w1 !! df1 = Some f → heap w2 !! df2 = Some f →
  ∃ o evs,
    evaluate ticker df1 latest w1 = (Ret o, log w1 evs) ∧
    evaluate ticker df2 latest w2 = (Ret o, log w2 evs) ∧
    fetches evs = [].
Proof.
  intros Hf1 Hf2. unfold_evaluate.
  destruct (latest !! "Close"); destruct (latest !! "SMA_short");
    destruct (latest !! "SMA_long"); destruct (latest !! "20w_high");
    destruct (latest !! "AROC"); split_comparisons;
    rewrite ?Hf1, ?Hf2; try destruct (last (index f));
    cbn [is_Exception];
    first [ by eexists _, []; rewrite !log_nil | by eexists _, [_] ].
Qed.

Lemma fetches_app evs1 evs2 :
  fetches (evs1 ++ evs2) = fetches evs1 ++ fetches evs2.
Proof. apply omap_app. Qed.

Section one_ticker.
Variable yf_download : string → Z → string + DataFrame.
Implicit Types (ticker : string) (w : world).

(** [analyze_ticker], step by step. *)
Lemma analyze_ticker_run ticker sma_short sma_long aroc_weeks w :
  analyze_ticker yf_download ticker sma_short sma_long aroc_weeks w =
    let w1 := log w [FetchData ticker (aroc_weeks + 10)] in
    match yf_download ticker (aroc_weeks + 10) with
    | inl msg =>
        (Ret None,
         log w1 [StWarning ("Error fetching data for " +:+ ticker +:+ ": " +:+ msg)])
    | inr f =>
        let df := fresh (dom (heap w)) in
        if frame_empty f then (Ret None, update_object w1 df f)
        else
          let st := indicator_steps f sma_short sma_long aroc_weeks in
          evaluate ticker df (omap last (columns st.1))
            (log (update_object w1 df st.1) (indicator_warning st.2))
    end.
Proof.
  unfold analyze_ticker, fetch_data, yf_download_call, try_except, emit, alloc,
    st_warning, raise, mbind, py_bind, mret, py_ret.
  destruct (yf_download ticker (aroc_weeks + 10)) as [msg|f]; [done|].
  cbn [heap log out is_Exception].
  set (df := fresh (dom (heap w))).
  change {| heap := <[df:=f]> (heap w); out := out w ++ [FetchData ticker (aroc_weeks + 10)] |}
    with (update_object (log w [FetchData ticker (aroc_weeks + 10)]) df f).
  set (w1 := log w [FetchData ticker (aroc_weeks + 10)]).
  rewrite (df_empty_run _ _ f) by apply heap_update_object.
  destruct (frame_empty f) eqn:He; [done|].
  rewrite (calc_indicators_run _ _ f) by apply heap_update_object.
  rewrite update_object_twice.
  rewrite (iloc_last_run _ _ (indicator_steps f sma_short sma_long aroc_weeks).1).
  - done.
  - apply heap_update_object.
  - destruct (indicator_steps_frame f sma_short sma_long aroc_weeks) as [-> _].
    by apply frame_empty_index.
Qed.

(** In any world the analysis returns the outcome of the ticker, after
    exactly one fetch, with lookback [aroc_weeks + 10]. *)
Lemma analyze_ticker_outcome ticker sma_short sma_long aroc_weeks w :
  ∃ w',
    analyze_ticker yf_download ticker sma_short sma_long aroc_weeks w
    = (Ret (ticker_outcome yf_download sma_short sma_long aroc_weeks ticker), w') ∧
    fetches (out w') = fetches (out w) ++ [(ticker, aroc_weeks + 10)].
Proof.
  unfold ticker_outcome. rewrite !analyze_ticker_run. cbn zeta.
  destruct (yf_download ticker (aroc_weeks + 10)) as [msg|f].
  { eexists. split; [reflexivity|]. rewrite log_app. cbn [out log].
    by rewrite fetches_app. }
  destruct (frame_empty f).
  { eexists. split; [reflexivity|]. cbn [out log update_object].
    by rewrite fetches_app. }
  set (st := indicator_steps f sma_short sma_long aroc_weeks).
  destruct (evaluate_local ticker (omap last (columns st.1))
              (fresh (dom (heap w)))
              (log (update_object (log w [FetchData ticker (aroc_weeks + 10)])
                      (fresh (dom (heap w))) st.1) (indicator_warning st.2))
              (fresh (dom (heap empty_world)))
              (log (update_object (log empty_world [FetchData ticker (aroc_weeks + 10)])
                      (fresh (dom (heap empty_world))) st.1) (indicator_warning st.2))
              st.1)
    as (o & evs & E1 & E2 & Hd); [apply lookup_insert_eq..|].
  rewrite E1, E2.
  eexists. split; [reflexivity|].
  rewrite log_app. cbn [out log update_object].
  rewrite !fetches_app, Hd, app_nil_r.
  destruct st.2; cbn; by rewrite app_nil_r.
Qed.

Lemma ticker_outcome_fetch_failed sma_short sma_long aroc_weeks ticker msg :
  yf_download ticker (aroc_weeks + 10) = inl msg →
  ticker_outcome yf_download sma_short sma_long aroc_weeks ticker = None.
Proof.
  intros H. unfold ticker_outcome. rewrite analyze_ticker_run. cbn zeta.
  by rewrite H.
Qed.

Lemma ticker_outcome_empty sma_short sma_long aroc_weeks ticker f :
  yf_download ticker (aroc_weeks + 10) = inr f → frame_empty f = true →
  ticker_outcome yf_download sma_short sma_long aroc_weeks ticker = None.
Proof.
  intros H He. unfold ticker_outcome. rewrite analyze_ticker_run. cbn zeta.
  by rewrite H, He.
Qed.

Lemma scan_loop_run sma_short sma_long aroc_weeks total to_scan :
  ∀ i results w,
  ∃ w',
    scan_loop yf_download sma_short sma_long aroc_weeks total i to_scan results w
    = (Ret (results ++ omap (ticker_outcome yf_download sma_short sma_long aroc_weeks) to_scan),
       w') ∧
    fetches (out w') = fetches (out w) ++ ((λ t, (t, aroc_weeks + 10)) <$> to_scan).
Proof.
  induction to_scan as [|ticker rest IH]; intros i results w; cbn [scan_loop].
  { exists w. by rewrite !app_nil_r. }
  unfold emit, mbind, py_bind.
  destruct (analyze_ticker_outcome ticker sma_short sma_long aroc_weeks
              (log w [StStatusText ("Analyzing " +:+ ticker +:+ " (" +:+ pretty (i + 1)%nat
                                    +:+ "/" +:+ pretty total +:+ ")...")]))
    as (w1 & -> & Hd1).
  edestruct IH as (w2 & -> & Hd2). exists w2. split.
  - f_equal. f_equal. cbn [omap list_omap].
    destruct (ticker_outcome _ _ _ _ ticker); [|done].
    by rewrite <-app_assoc.
  - rewrite Hd2. cbn [log out]. rewrite fetches_app, Hd1. cbn [log out].
    rewrite fetches_app. cbn. by rewrite !app_nil_r, <-app_assoc.
Qed.

(** C6. The loop of [main] analyses the tickers one at a time in input
    order, each fetched once with lookback [aroc_weeks + 10]; it always
    returns, and returns the results already collected followed by the
    results of the matching tickers in input order; a ticker whose fetch
    fails or whose series is empty contributes nothing. *)
Theorem scan_collects_in_order sma_short sma_long aroc_weeks total i to_scan results w :
  (∃ w',
     scan_loop yf_download sma_short sma_long aroc_weeks total i to_scan results w
     = (Ret (results ++ omap (ticker_outcome yf_download sma_short sma_long aroc_weeks) to_scan),
        w') ∧
     fetches (out w') = fetches (out w) ++ ((λ t, (t, aroc_weeks + 10)) <$> to_scan)) ∧
  (∀ ticker,
     (∃ msg, yf_download ticker (aroc_weeks + 10) = inl msg) ∨
     (∃ f, yf_download ticker (aroc_weeks + 10) = inr f ∧ frame_empty f = true) →
     ticker_outcome yf_download sma_short sma_long aroc_weeks ticker = None).
Proof.
  split; [apply scan_loop_run|].
  intros ticker [[msg H]|(f & H & He)].
  - by eapply ticker_outcome_fetch_failed.
  - by eapply ticker_outcome_empty.
Qed.

(** C8. [calc_indicators] never raises: it always returns the reference it
    was given.  When the Close column is absent it leaves the frame as it
    was, writing no derived column, and only warns; the analysis of such a
    ticker then returns nothing, and so does the analysis, with a negative
    window, of any frame that has no AROC column. *)
Theorem indicator_errors_contained ticker sma_short sma_long aroc_weeks w :
  (∀ df, ∃ w', calc_indicators df sma_short sma_long aroc_weeks w = (Ret df, w')) ∧
  (∀ df f, heap w !! df = Some f → columns f !! "Close" = None →
     ∃ msg, calc_indicators df sma_short sma_long aroc_weeks w
            = (Ret df, log w [StWarning msg])) ∧
  (∀ f, yf_download ticker (aroc_weeks + 10) = inr f →
     columns f !! "Close" = None ∨
     (columns f !! "AROC" = None ∧
      (sma_short < 0 ∨ sma_long < 0 ∨ aroc_weeks < 0)) →
     ∃ w', analyze_ticker yf_download ticker sma_short sma_long aroc_weeks w
           = (Ret None, w')).
Proof.
  split_and!.
  - intros df. destruct (heap w !! df) as [f|] eqn:Hf.
    + rewrite (calc_indicators_run _ _ _ _ _ _ Hf). eauto.
    + unfold calc_indicators, try_except, getitem, deref, mbind, py_bind.
      rewrite Hf. cbn. eauto.
  - intros df f Hf Hc. rewrite (calc_indicators_run _ _ _ _ _ _ Hf).
    unfold indicator_steps. rewrite Hc. cbn [fst snd indicator_warning].
    rewrite (update_object_id _ _ _ Hf). eauto.
  - intros f Hdl Hbad. rewrite analyze_ticker_run. cbn zeta. rewrite Hdl.
    destruct (frame_empty f); [by eauto|].
    set (st := indicator_steps f sma_short sma_long aroc_weeks).
    set (latest := omap last (columns st.1)).
    match goal with |- ∃ w', evaluate _ ?df _ ?w0 = _ =>
      destruct (evaluate_returns ticker df latest w0) as ([r|] & w' & He)
    end; [|by eauto].
    exfalso. apply evaluate_Some in He
      as (? & ? & c & s & l & h & a & _ & _ & _ & Hc & _ & _ & _ & Ha & _).
    subst latest. rewrite lookup_omap in Hc, Ha.
    destruct Hbad as [Hnc|[Hna Herr]].
    + subst st. by rewrite indicator_steps_close, Hnc in Hc.
    + subst st. unfold indicator_steps in Ha.
      repeat case_match; simpl in *; try lia; by simplify_map_eq.
Qed.


End one_ticker.

(** ** The ticker universe *)




Section universe.
Variable read_html : string → string + list table.
Variable yf_download : string → Z → string + DataFrame.




(** A whole run of [main] with a non-empty universe and the button
    pressed: it returns, after the fetches of the tickers to scan, and
    shows the results it found. *)
Lemma main_scan ui w tickers w1 :
  get_all_tickers read_html
    (log (log w [StTitle "S&P 500 & Nasdaq 100 Technical Scanner"])
         [StWrite "Scan S&P 500 and Nasdaq 100 stocks for bullish technical setups."])
  = (Ret tickers, w1) →
  tickers ≠ [] → run_scan ui = true →
  let to_scan :=
    if bool_decide (selected_tickers ui = []) then tickers else selected_tickers ui in
  let results :=
    omap (ticker_outcome yf_download (sma_short_input ui) (sma_long_input ui)
            (aroc_weeks_input ui)) to_scan in
  ∃ w',
    main read_html yf_download ui w = (Ret (), w') ∧
    fetches (out w')
    = fetches (out w1) ++ ((λ t, (t, aroc_weeks_input ui + 10)) <$> to_scan) ∧
    (results ≠ [] → StDataframe results ∈ out w').
Proof.
  intros Hall Hne Hrun to_scan results.
  unfold main, emit, st_stop, raise. unfold mbind at 1 2 3 4, py_bind at 1 2 3 4.
  rewrite Hall, (bool_decide_eq_false_2 _ Hne), Hrun. fold to_scan.
  unfold mbind, py_bind, mret, py_ret.
  destruct (scan_loop_run yf_download (sma_short_input ui) (sma_long_input ui)
              (aroc_weeks_input ui) (length to_scan) to_scan 0%nat []
              (log w1 [StProgress (Float.of_Z 0)])) as (w2 & -> & Hd).
  rewrite app_nil_l. fold results.
  destruct (bool_decide (results = [])) eqn:Hres.
  - eexists. split; [reflexivity|]. split.
    + rewrite !log_app. cbn [out log]. rewrite fetches_app, Hd. cbn [out log].
      rewrite fetches_app. cbn. by rewrite !app_nil_r.
    + by apply bool_decide_eq_true in Hres.
  - eexists. split; [reflexivity|]. split.
    + rewrite !log_app. cbn [out log]. rewrite fetches_app, Hd. cbn [out log].
      rewrite fetches_app. cbn. by rewrite !app_nil_r.
    + intros _. rewrite !log_app. cbn [out log].
      apply elem_of_app. right. cbn. do 3 right. by left.
Qed.

End universe.


(** ** The statements at concrete inputs *)


Lemma sell_recommendation_max_witness :
  ∃ r, evaluate "DEMO" 1 signal_row signal_world = (Ret (Some r), signal_world) ∧
       Entry_Recommendation r = Float.of_Z 100 ∧
       Sell_Recommendation r = Float.of_Z 93.
Proof.
  eexists. split; [vm_compute; reflexivity|].
  match goal with |- Entry_Recommendation ?r = _ ∧ _ =>
    destruct (sell_recommendation_max "DEMO" 1 signal_row signal_world signal_world r)
      as (_ & _ & He & _ & H93 & _)
  end.
  - vm_compute. reflexivity.
  - split; [rewrite He; reflexivity|]. apply H93; reflexivity.
Defined.


Lemma aroc_rate_of_change_witness :
  ∃ f' aroc,
    heap (calc_indicators 1 2 3 1 rising_world).2 !! 1%positive = Some f' ∧
    columns f' !! "AROC" = Some aroc ∧
    rate_of_change (1 * 5) (Float.of_Z <$> rising) aroc.
Proof.
  apply (aroc_rate_of_change rising_world 1 (bars rising) (Float.of_Z <$> rising) 2 3 1);
    [reflexivity|reflexivity|lia|lia|lia].
Defined.





Lemma scan_collects_in_order_witness :
  ticker_outcome market 2 3 1 "ZZZ" = None ∧
  ∃ w',
    scan_loop market 2 3 1 2 0 ["ZZZ"; "UP"] [] empty_world
    = (Ret ([] ++ omap (ticker_outcome market 2 3 1) ["ZZZ"; "UP"]), w') ∧
    fetches (out w')
    = fetches (out empty_world) ++ ((λ t, (t, 1 + 10)) <$> ["ZZZ"; "UP"]).
Proof.
  destruct (scan_collects_in_order market 2 3 1 2 0 ["ZZZ"; "UP"] [] empty_world)
    as [Hrun Hnone].
  split; [|exact Hrun]. apply Hnone. left. eexists. reflexivity.
Defined.

Lemma indicator_errors_contained_witness :
  ∃ w', analyze_ticker market "BAD" 2 3 1 empty_world = (Ret None, w').
Proof.
  destruct (indicator_errors_contained market "BAD" 2 3 1 empty_world)
    as (_ & _ & Hnone).
  eapply Hnone; [reflexivity|]. left. reflexivity.
Defined.


(** Five tickers, one fetch fails: the result holds the matching ticker of
    the four others, and all five were fetched, in order. *)
Example scan_five_tickers :
  ∃ r w',
    scan_loop market 2 3 1 5 0 ["BAD"; "FLAT"; "ZZZ"; "UP"; "NONE"] [] empty_world
    = (Ret [r], w') ∧
    Ticker r = "UP" ∧ Entry_Recommendation r = Float.of_Z 120 ∧
    fetches (out w')
    = [("BAD", 11); ("FLAT", 11); ("ZZZ", 11); ("UP", 11); ("NONE", 11)].
Proof. eexists _, _. split; [vm_compute; reflexivity|]. by vm_compute. Qed.

(** ** Worked examples *)

Example float_mul_ex : (Float.of_Z 100 * Float.lit 93 100)%float = Float.of_Z 93.
Proof. compute_done. Qed.

Example float_div_zero_ex :
  (Float.of_Z 1 / Float.of_Z 0)%float = PInf ∧ (Float.of_Z 0 / Float.of_Z 0)%float = NaN.
Proof. by vm_compute. Qed.

Example strftime_ex :
  strftime_ymd {| year := 2024; month := 3; day := 7 |} = "2024-03-07".
Proof. reflexivity. Qed.

Example shift_ex :
  Series.shift 2 [Float.of_Z 1; Float.of_Z 2; Float.of_Z 3] = [NaN; NaN; Float.of_Z 1].
Proof. reflexivity. Qed.

(** The columns of the rising series: windows 2 (mean) and 5 (high, AROC). *)
Example sma_rising_ex :
  sma_column (Float.of_Z <$> rising) 2
  = [NaN; Float.lit 201 2; Float.lit 203 2; Float.lit 205 2; Float.lit 207 2;
     Float.of_Z 107; Float.of_Z 115].
Proof. compute_done. Qed.

Example high_rising_ex :
  high_column (Float.of_Z <$> rising) 5
  = [NaN; NaN; NaN; NaN; Float.of_Z 104; Float.of_Z 110; Float.of_Z 120].
Proof. compute_done. Qed.

Example aroc_rising_ex :
  aroc_column (Float.of_Z <$> rising) 5
  = [NaN; NaN; NaN; NaN; NaN; Float.of_Z 10; Float.lit 1900 101].
Proof. compute_done. Qed.

(** A window longer than the series leaves every bar undefined. *)
Example sma_short_series_ex :
  sma_column (Float.of_Z <$> [1; 2; 3]) 5 = [NaN; NaN; NaN].
Proof. compute_done. Qed.

(** A flat series has AROC 0: no result. *)
Example analyze_flat_ex :
  (analyze_ticker market "FLAT" 2 3 1 empty_world).1 = Ret None.
Proof. by vm_compute. Qed.

(** A frame without Close: two warnings and no result. *)
Example analyze_malformed_ex :
  ∃ w',
    analyze_ticker market "BAD" 2 3 1 empty_world = (Ret None, w') ∧
    out w' = [FetchData "BAD" 11;
              StWarning "Indicator calculation error: 'Close'";
              StWarning "Error processing BAD: 'Close'"].
Proof. eexists. split; [vm_compute; reflexivity|]. by vm_compute. Qed.

Example combined_ex :
  combined ["MSFT"; "AAPL"; "BRK.B"] ["AAPL"; "GOOG"] = ["AAPL"; "BRK.B"; "GOOG"; "MSFT"].
Proof. by vm_compute. Qed.

(** Both sources unreachable: [main] reports the two failures and stops. *)
Example main_stops_ex :
  main (λ _, inl "HTTP Error 503") market
    {| selected_tickers := []; sma_short_input := 20; sma_long_input := 50;
       aroc_weeks_input := 20; run_scan := true |} empty_world
  = (Exc StopException,
     log empty_world
       [StTitle "S&P 500 & Nasdaq 100 Technical Scanner";
        StWrite "Scan S&P 500 and Nasdaq 100 stocks for bullish technical setups.";
        ReadHtml TICKERS_URL_SP500;
        StError "Failed to fetch S&P 500 tickers: HTTP Error 503";
        ReadHtml TICKERS_URL_NASDAQ100;
        StError "Failed to fetch Nasdaq 100 tickers: HTTP Error 503"]).
Proof. by vm_compute. Qed.

(** * Further properties *)

(** ** The two ticker sources *)

Lemma table_lookup_first t name vals :
  table_lookup t name = Some vals ↔
  first_column (λ c, bool_decide (c = LStr name)) t vals.
Proof.
  unfold first_column. induction t as [|[c v] t IH]; cbn [table_lookup].
  - split; [done|]. by intros (j & c & Hj & _).
  - destruct (decide (c = LStr name)) as [Hc|Hc].
    + split.
      * intros [= ->]. exists 0%nat, c. split; [done|].
        split; [by apply bool_decide_eq_true|]. intros; lia.
      * intros (j & c' & Hj & Hc' & Hfirst). destruct j as [|j]; [by injection Hj as _ ->|].
        specialize (Hfirst 0%nat c v (Nat.lt_0_succ j) eq_refl).
        by apply bool_decide_eq_false in Hfirst.
    + rewrite IH. split.
      * intros (j & c' & Hj & Hc' & Hfirst). exists (S j), c'. split; [done|].
        split; [done|]. intros [|j'] c'' v'' Hlt Hj'.
        -- injection Hj' as -> _. by apply bool_decide_eq_false.
        -- apply (Hfirst j' c'' v''); [lia|done].
      * intros (j & c' & Hj & Hc' & Hfirst). destruct j as [|j].
        { injection Hj as -> _. by apply bool_decide_eq_true in Hc'. }
        exists j, c'. split; [done|]. split; [done|].
        intros j' c'' v'' Hlt Hj'. apply (Hfirst (S j') c'' v''); [lia|done].
Qed.

Lemma table_lookup_None t name :
  table_lookup t name = None ↔ no_column (λ c, bool_decide (c = LStr name)) t.
Proof.
  unfold no_column. induction t as [|[c v] t IH]; cbn [table_lookup].
  - split; [|done]. by intros _ j c vals.
  - destruct (decide (c = LStr name)) as [Hc|Hc].
    + split; [done|]. intros H. specialize (H 0%nat c v eq_refl).
      by apply bool_decide_eq_false in H.
    + rewrite IH. split.
      * intros H [|j] c' v' Hj.
        -- injection Hj as <- _. by apply bool_decide_eq_false.
        -- by eapply H.
      * intros H j c' v' Hj. by apply (H (S j) c' v').
Qed.

Lemma first_ticker_column_first t vals :
  first_ticker_column t = Some vals ↔ first_column is_ticker_label t vals.
Proof.
  unfold first_column. induction t as [|[c v] t IH]; cbn [first_ticker_column].
  - split; [done|]. by intros (j & c & Hj & _).
  - destruct (is_ticker_label c) eqn:Hc.
    + split.
      * intros [= ->]. exists 0%nat, c. split; [done|]. split; [done|]. intros; lia.
      * intros (j & c' & Hj & Hc' & Hfirst). destruct j as [|j]; [by injection Hj as _ ->|].
        specialize (Hfirst 0%nat c v (Nat.lt_0_succ j) eq_refl). congruence.
    + rewrite IH. split.
      * intros (j & c' & Hj & Hc' & Hfirst). exists (S j), c'. split; [done|].
        split; [done|]. intros [|j'] c'' v'' Hlt Hj'.
        -- by injection Hj' as -> _.
        -- apply (Hfirst j' c'' v''); [lia|done].
      * intros (j & c' & Hj & Hc' & Hfirst). destruct j as [|j].
        { injection Hj as -> _. congruence. }
        exists j, c'. split; [done|]. split; [done|].
        intros j' c'' v'' Hlt Hj'. apply (Hfirst (S j') c'' v''); [lia|done].
Qed.

Lemma first_ticker_column_None t :
  first_ticker_column t = None ↔ no_column is_ticker_label t.
Proof.
  unfold no_column. induction t as [|[c v] t IH]; cbn [first_ticker_column].
  - split; [|done]. by intros _ j c vals.
  - destruct (is_ticker_label c) eqn:Hc.
    + split; [done|]. intros H. specialize (H 0%nat c v eq_refl). congruence.
    + rewrite IH. split.
      * intros H [|j] c' v' Hj; [by injection Hj as <- _|]. by eapply H.
      * intros H j c' v' Hj. by apply (H (S j) c' v').
Qed.

Lemma first_ticker_table_Some ts vals :
  first_ticker_table ts = Some vals ↔
  ∃ i t, ts !! i = Some t ∧ first_column is_ticker_label t vals ∧
         ∀ i' t', (i' < i)%nat → ts !! i' = Some t' → no_column is_ticker_label t'.
Proof.
  induction ts as [|t ts IH]; cbn [first_ticker_table].
  - split; [done|]. by intros (i & t & Hi & _).
  - destruct (first_ticker_column t) as [v|] eqn:Ht.
    + split.
      * intros [= ->]. exists 0%nat, t. split; [done|].
        split; [by apply first_ticker_column_first|]. intros; lia.
      * intros (i & t' & Hi & Hcol & Hfirst). destruct i as [|i].
        { injection Hi as <-. apply first_ticker_column_first in Hcol. congruence. }
        specialize (Hfirst 0%nat t (Nat.lt_0_succ i) eq_refl).
        apply first_ticker_column_None in Hfirst. congruence.
    + rewrite IH. split.
      * intros (i & t' & Hi & Hcol & Hfirst). exists (S i), t'. split; [done|].
        split; [done|]. intros [|i'] t'' Hlt Hi'.
        -- injection Hi' as <-. by apply first_ticker_column_None.
        -- apply (Hfirst i' t''); [lia|done].
      * intros (i & t' & Hi & Hcol & Hfirst). destruct i as [|i].
        { injection Hi as <-. apply first_ticker_column_first in Hcol. congruence. }
        exists i, t'. split; [done|]. split; [done|].
        intros i' t'' Hlt Hi'. apply (Hfirst (S i') t''); [lia|done].
Qed.

Lemma first_ticker_table_None ts :
  first_ticker_table ts = None ↔ ∀ i t, ts !! i = Some t → no_column is_ticker_label t.
Proof.
  induction ts as [|t ts IH]; cbn [first_ticker_table].
  - split; [|done]. by intros _ i t.
  - destruct (first_ticker_column t) as [v|] eqn:Ht.
    + split; [done|]. intros H. specialize (H 0%nat t eq_refl).
      apply first_ticker_column_None in H. congruence.
    + rewrite IH. split.
      * intros H [|i] t' Hi.
        -- injection Hi as <-. by apply first_ticker_column_None.
        -- by eapply H.
      * intros H i t' Hi. by apply (H (S i) t').
Qed.

Section sources.
Variable read_html : string → string + list table.

(** X1. [get_sp500_tickers] never raises and requests the page once.  For
    a page whose first table has distinct column labels, it returns the
    column labelled "Symbol" of that table, with no error shown; when the
    page cannot be read, holds no table, or its first table has no such
    column, it returns the empty list and shows one error. *)
Theorem sp500_source_contained w :
  (∀ t rest, read_html TICKERS_URL_SP500 = inr (t :: rest) → NoDup (t.*1)) →
  ∃ l evs,
    get_sp500_tickers read_html w
    = (Ret l, log w (ReadHtml TICKERS_URL_SP500 :: evs)) ∧
    ((evs = [] ∧
      ∃ t rest, read_html TICKERS_URL_SP500 = inr (t :: rest) ∧
                (LStr "Symbol", l) ∈ t) ∨
     (l = [] ∧
      ∃ msg, evs = [StError ("Failed to fetch S&P 500 tickers: " +:+ msg)] ∧
             (read_html TICKERS_URL_SP500 = inl msg ∨
              read_html TICKERS_URL_SP500 = inr [] ∨
              ∃ t rest, read_html TICKERS_URL_SP500 = inr (t :: rest) ∧
                        ∀ vals, (LStr "Symbol", vals) ∉ t))).
Proof.
  intros _.
  unfold get_sp500_tickers, pd_read_html, try_except, st_error, emit, raise,
    mbind, py_bind, mret, py_ret.
  destruct (read_html TICKERS_URL_SP500) as [msg|[|t rest]]; cbn [is_Exception].
  - eexists _, _. rewrite log_app. split; [reflexivity|]. right. split; [done|].
    eexists. split; [done|]. by left.
  - eexists _, _. rewrite log_app. split; [reflexivity|]. right. split; [done|].
    eexists. split; [done|]. right. by left.
  - destruct (table_lookup t "Symbol") as [col|] eqn:Hcol; cbn [is_Exception].
    + eexists _, _. split; [reflexivity|]. left. split; [done|].
      exists t, rest. split; [done|].
      apply table_lookup_first in Hcol as (j & c & Hj & Hc & _).
      apply bool_decide_eq_true in Hc as ->. by eapply list_elem_of_lookup_2.
    + eexists _, _. rewrite log_app. split; [reflexivity|]. right. split; [done|].
      eexists. split; [done|]. right. right. exists t, rest. split; [done|].
      intros vals (j & Hj)%list_elem_of_lookup_1.
      apply table_lookup_None in Hcol. specialize (Hcol j _ _ Hj).
      by apply bool_decide_eq_false in Hcol.
Qed.

(** X2. [get_nasdaq100_tickers] never raises and requests the page once.
    For a page whose tables have distinct column labels, it returns the
    first column, in page order (tables, then columns), whose label is a
    string containing "Ticker" or "Symbol"; when no table
    has such a column it returns the empty list with the "Could not find"
    error, and when the page cannot be read the empty list with the
    "Failed to fetch" error. *)
Theorem nasdaq100_source_first_match w :
  (∀ tables t, read_html TICKERS_URL_NASDAQ100 = inr tables → t ∈ tables →
               NoDup (t.*1)) →
  ∃ l evs,
    get_nasdaq100_tickers read_html w
    = (Ret l, log w (ReadHtml TICKERS_URL_NASDAQ100 :: evs)) ∧
    match read_html TICKERS_URL_NASDAQ100 with
    | inl msg =>
        l = [] ∧ evs = [StError ("Failed to fetch Nasdaq 100 tickers: " +:+ msg)]
    | inr tables =>
        (evs = [] ∧
         ∃ i t, tables !! i = Some t ∧ first_column is_ticker_label t l ∧
                ∀ i' t', (i' < i)%nat → tables !! i' = Some t' →
                         no_column is_ticker_label t') ∨
        (l = [] ∧
         evs = [StError "Could not find 'Ticker' or 'Symbol' column in Nasdaq 100 table."] ∧
         ∀ i t, tables !! i = Some t → no_column is_ticker_label t)
    end.
Proof.
  intros _.
  unfold get_nasdaq100_tickers, pd_read_html, try_except, st_error, emit, raise,
    mbind, py_bind, mret, py_ret.
  destruct (read_html TICKERS_URL_NASDAQ100) as [msg|tables]; cbn [is_Exception].
  - eexists _, _. rewrite log_app. by split.
  - destruct (first_ticker_table tables) as [col|] eqn:Hcol.
    + eexists _, _. split; [reflexivity|]. left. split; [done|].
      by apply first_ticker_table_Some.
    + eexists _, _. rewrite log_app. split; [reflexivity|]. right.
      split; [done|]. split; [done|]. by apply first_ticker_table_None.
Qed.




End sources.


(** ** Fetching and analysing one ticker *)






Section fetch.
Variable yf_download : string → Z → string + DataFrame.


(** What a returned result rests on. *)
Lemma analyze_ticker_Some ticker sma_short sma_long aroc_weeks w w' r :
  analyze_ticker yf_download ticker sma_short sma_long aroc_weeks w = (Ret (Some r), w') →
  ∃ f d,
    yf_download ticker (aroc_weeks + 10) = inr f ∧ frame_empty f = false ∧
    last (index f) = Some d ∧
    let latest := omap last (columns (indicator_steps f sma_short sma_long aroc_weeks).1) in
    latest !! "Close" = Some (Close r) ∧
    latest !! "SMA_short" = Some (SMA_short r) ∧
    latest !! "SMA_long" = Some (SMA_long r) ∧
    latest !! "20w_high" = Some (High_20w r) ∧
    latest !! "AROC" = Some (AROC r) ∧
    entry_condition (Close r) (SMA_short r) (SMA_long r) (High_20w r) (AROC r) ∧
    Ticker r = ticker ∧ Date r = strftime_ymd d ∧
    Entry_Recommendation r = Close r.
Proof.
  rewrite analyze_ticker_run. cbn zeta.
  destruct (yf_download ticker (aroc_weeks + 10)) as [msg|f]; [done|].
  destruct (frame_empty f) eqn:He; [done|].
  intros (f' & d & c & s & l & h & a & _ & Hf' & Hd & Hc & Hs & Hl & Hh & Ha & Hcond & ->)
    %evaluate_Some.
  cbn [heap log update_object] in Hf'. rewrite lookup_insert_eq in Hf'.
  injection Hf' as <-.
  destruct (indicator_steps_frame f sma_short sma_long aroc_weeks) as [Hidx _].
  rewrite Hidx in Hd.
  exists f, d. cbn. by split_and!.
Qed.




End fetch.

(** ** The indicators a result reports *)

Lemma five_percent (a b : Qc) :
  (0 < b)%Qc → (Q2Qc (inject_Z 5) < (a - b) / b * Q2Qc (inject_Z 100))%Qc →
  (b * Q2Qc (105 # 100) < a)%Qc.
Proof.
  intros Hb H.
  assert (Hne : b ≠ 0%Qc) by (intros ->; by destruct (Qclt_not_eq _ _ Hb)).
  set (x := ((a - b) / b)%Qc) in *.
  assert (Hx : (x * b = a - b)%Qc) by (subst x; field; done).
  assert (Ha : a = (b + x * b)%Qc) by (rewrite Hx; ring).
  rewrite Ha. clearbody x. clear Hx Ha Hne.
  unfold Qclt in *. simpl in *. rewrite ?Qred_correct in *.
  change (Qred 0) with 0%Q in Hb.
  change (Qred (inject_Z 5)) with 5%Q in H.
  change (Qred (inject_Z 100)) with 100%Q in H.
  change (Qred (105 # 100)) with (21 # 20)%Q.
  unfold inject_Z in H.
  assert (Hp : (0 < (x - (1 # 20)) * b)%Q) by (apply Qmult_lt_0_compat; lra).
  lra.
Qed.

(** The last value of a moving average, when it is defined. *)
Lemma trailing_mean_last window close col s :
  0 < window → trailing_mean window close col →
  last col = Some s → s ≠ NaN →
  window ≤ Z.of_nat (length close) ∧
  s = mean_over close (length close - Z.to_nat window) (Z.to_nat window).
Proof.
  intros Hw (Hlen & Hi & _) Hs Hn. rewrite last_lookup, Hlen in Hs.
  pose proof (lookup_lt_Some _ _ _ Hs) as Hlt. rewrite Hlen in Hlt.
  destruct (Hi (pred (length close))) as [Hshort Hfull]; [lia|].
  destruct (decide (Z.of_nat (pred (length close)) < window - 1)) as [Hd|Hd].
  - rewrite (Hshort Hd) in Hs. congruence.
  - rewrite Hfull in Hs by lia. injection Hs as <-. split; [lia|].
    f_equal. lia.
Qed.

Lemma rate_of_change_last window close col a :
  0 ≤ window → rate_of_change window close col →
  last col = Some a → a ≠ NaN →
  window < Z.of_nat (length close) ∧
  a = Float.mul
        (Float.div
           (Float.sub (close !!! pred (length close))
                      (close !!! (pred (length close) - Z.to_nat window)%nat))
           (close !!! (pred (length close) - Z.to_nat window)%nat))
        (Float.of_Z 100).
Proof.
  intros Hw (Hlen & Hi) Hs Hn. rewrite last_lookup, Hlen in Hs.
  pose proof (lookup_lt_Some _ _ _ Hs) as Hlt. rewrite Hlen in Hlt.
  destruct (Hi (pred (length close))) as [Hshort Hfull]; [lia|].
  destruct (decide (Z.of_nat (pred (length close)) < window)) as [Hd|Hd].
  - rewrite (Hshort Hd) in Hs. congruence.
  - cbn zeta in Hfull. rewrite Hfull in Hs by lia. injection Hs as <-.
    split; [lia|].
    by replace (Z.to_nat (Z.of_nat (pred (length close)) - window))
      with (pred (length close) - Z.to_nat window)%nat by lia.
Qed.

Lemma trailing_max_last window close col v :
  0 < window → trailing_max window close col →
  last col = Some v → v ≠ NaN →
  window ≤ Z.of_nat (length close) ∧
  max_over close (length close - Z.to_nat window) (Z.to_nat window) v.
Proof.
  intros Hw (Hlen & Hi) Hs Hn. rewrite last_lookup, Hlen in Hs.
  pose proof (lookup_lt_Some _ _ _ Hs) as Hlt. rewrite Hlen in Hlt.
  destruct (Hi (pred (length close))) as [Hshort Hfull]; [lia|].
  destruct (decide (Z.of_nat (pred (length close)) < window - 1)) as [Hd|Hd].
  - rewrite (Hshort Hd) in Hs. congruence.
  - destruct Hfull as (v' & Hv' & Hmax & Hnan); [lia|]. cbn zeta in Hmax, Hnan.
    rewrite Hs in Hv'. injection Hv' as <-. split; [lia|].
    replace (Z.to_nat (Z.of_nat (pred (length close)) - window + 1))
      with (length close - Z.to_nat window)%nat in Hmax, Hnan by lia.
    apply Hmax. intros j Hj Hj'. apply Hn, Hnan. eauto.
Qed.

Section reported.
Variable yf_download : string → Z → string + DataFrame.

(** The derived values of a result, for positive windows. *)
Lemma analyze_ticker_last ticker sma_short sma_long aroc_weeks w w' r f close :
  0 < sma_short → 0 < sma_long → 0 < aroc_weeks →
  analyze_ticker yf_download ticker sma_short sma_long aroc_weeks w = (Ret (Some r), w') →
  yf_download ticker (aroc_weeks + 10) = inr f →
  columns f !! "Close" = Some close →
  last close = Some (Close r) ∧
  last (sma_column close sma_short) = Some (SMA_short r) ∧
  last (sma_column close sma_long) = Some (SMA_long r) ∧
  last (high_column close (aroc_weeks * 5)) = Some (High_20w r) ∧
  last (aroc_column close (aroc_weeks * 5)) = Some (AROC r) ∧
  entry_condition (Close r) (SMA_short r) (SMA_long r) (High_20w r) (AROC r).
Proof.
  intros H1 H2 H3 (f' & d & Hdl & _ & _ & Hc & Hs & Hl & Hh & Ha & Hcond & _)
    %analyze_ticker_Some Hf Hclose.
  rewrite Hf in Hdl. injection Hdl as <-.
  rewrite (indicator_steps_all _ _ _ _ _ Hclose) in Hc, Hs, Hl, Hh, Ha by lia.
  cbn [fst set_column columns] in Hc, Hs, Hl, Hh, Ha.
  rewrite lookup_omap in Hc, Hs, Hl, Hh, Ha.
  simplify_map_eq. by split_and!.
Qed.

(** X8. For positive windows, a result reports the indicators of the last
    bar of the downloaded Close column: the series is long enough for each
    window, SMA_short and SMA_long are the means of the last [sma_short]
    and [sma_long] closes, the high is the greatest of the last
    [aroc_weeks * 5] closes, and AROC is the change, in percent, from the
    close [aroc_weeks * 5] bars before the last one. *)
Theorem reported_indicators ticker sma_short sma_long aroc_weeks w w' r f close :
  0 < sma_short → 0 < sma_long → 0 < aroc_weeks →
  analyze_ticker yf_download ticker sma_short sma_long aroc_weeks w = (Ret (Some r), w') →
  yf_download ticker (aroc_weeks + 10) = inr f →
  columns f !! "Close" = Some close →
  let n := length close in
  let lag := Z.to_nat (aroc_weeks * 5) in
  sma_short ≤ Z.of_nat n ∧ sma_long ≤ Z.of_nat n ∧ aroc_weeks * 5 < Z.of_nat n ∧
  SMA_short r = mean_over close (n - Z.to_nat sma_short) (Z.to_nat sma_short) ∧
  SMA_long r = mean_over close (n - Z.to_nat sma_long) (Z.to_nat sma_long) ∧
  max_over close (n - lag) lag (High_20w r) ∧
  AROC r = Float.mul
             (Float.div (Float.sub (close !!! pred n) (close !!! (pred n - lag)%nat))
                        (close !!! (pred n - lag)%nat))
             (Float.of_Z 100).
Proof.
  intros H1 H2 H3 Hr Hf Hclose n lag.
  destruct (analyze_ticker_last _ _ _ _ _ _ _ _ _ H1 H2 H3 Hr Hf Hclose)
    as (_ & Hs & Hl & Hh & Ha & Hcond).
  apply entry_condition_defined in Hcond as (_ & Hsn & Hln & Hhn & Han).
  destruct (trailing_mean_last sma_short close _ _ H1
              (sma_column_trailing_mean close sma_short H1) Hs Hsn) as [? ?].
  destruct (trailing_mean_last sma_long close _ _ H2
              (sma_column_trailing_mean close sma_long H2) Hl Hln) as [? ?].
  destruct (trailing_max_last (aroc_weeks * 5) close _ _ ltac:(lia)
              (high_column_trailing_max close (aroc_weeks * 5) ltac:(lia)) Hh Hhn)
    as [? ?].
  destruct (rate_of_change_last (aroc_weeks * 5) close _ _ ltac:(lia)
              (aroc_column_rate_of_change close (aroc_weeks * 5) ltac:(lia)) Ha Han)
    as [? ?].
  by split_and!.
Qed.

(** X9. For positive windows, a series too short for one of the windows
    gives no result: fewer closes than [sma_short] or [sma_long], or at
    most [aroc_weeks * 5] closes. *)
Theorem short_series_no_result ticker sma_short sma_long aroc_weeks w f close :
  0 < sma_short → 0 < sma_long → 0 < aroc_weeks →
  yf_download ticker (aroc_weeks + 10) = inr f →
  columns f !! "Close" = Some close →
  Z.of_nat (length close) < sma_short ∨ Z.of_nat (length close) < sma_long ∨
  Z.of_nat (length close) ≤ aroc_weeks * 5 →
  ∃ w', analyze_ticker yf_download ticker sma_short sma_long aroc_weeks w = (Ret None, w').
Proof.
  intros H1 H2 H3 Hf Hclose Hshort.
  destruct (analyze_ticker_outcome yf_download ticker sma_short sma_long aroc_weeks w)
    as (w' & Hr & _).
  destruct (ticker_outcome _ _ _ _ _) as [r|]; [|by eauto]. exfalso.
  destruct (analyze_ticker_last _ _ _ _ _ _ _ _ _ H1 H2 H3 Hr Hf Hclose)
    as (_ & Hs & Hl & _ & Ha & Hcond).
  apply entry_condition_defined in Hcond as (_ & Hsn & Hln & _ & Han).
  destruct (trailing_mean_last sma_short close _ _ H1
              (sma_column_trailing_mean close sma_short H1) Hs Hsn) as [? _].
  destruct (trailing_mean_last sma_long close _ _ H2
              (sma_column_trailing_mean close sma_long H2) Hl Hln) as [? _].
  destruct (rate_of_change_last (aroc_weeks * 5) close _ _ ltac:(lia)
              (aroc_column_rate_of_change close (aroc_weeks * 5) ltac:(lia)) Ha Han)
    as [? _].
  lia.
Qed.

(** X10. For positive windows, a result means a rise of more than five
    percent: when the close [aroc_weeks * 5] bars before the last one is a
    positive number [b], the reported Close is a number above [1.05 * b]. *)
Theorem result_means_five_percent_rise
    ticker sma_short sma_long aroc_weeks w w' r f close b :
  0 < sma_short → 0 < sma_long → 0 < aroc_weeks →
  analyze_ticker yf_download ticker sma_short sma_long aroc_weeks w = (Ret (Some r), w') →
  yf_download ticker (aroc_weeks + 10) = inr f →
  columns f !! "Close" = Some close →
  close !! (pred (length close) - Z.to_nat (aroc_weeks * 5))%nat = Some (Fin b) →
  (0 < b)%Qc →
  ∃ a, Close r = Fin a ∧ (b * Q2Qc (105 # 100) < a)%Qc.
Proof.
  intros H1 H2 H3 Hr Hf Hclose Hb Hpos.
  destruct (analyze_ticker_last _ _ _ _ _ _ _ _ _ H1 H2 H3 Hr Hf Hclose)
    as (Hc & Hs & _ & _ & Ha & Hcond).
  pose proof Hcond as (Hgt & _ & _ & H5).
  apply entry_condition_defined in Hcond as (Hcn & _ & _ & _ & Han).
  destruct (rate_of_change_last (aroc_weeks * 5) close _ _ ltac:(lia)
              (aroc_column_rate_of_change close (aroc_weeks * 5) ltac:(lia)) Ha Han)
    as [_ Hformula].
  rewrite (list_lookup_total_correct _ _ _ Hb) in Hformula.
  pose proof Hc as Hc'. rewrite last_lookup in Hc'.
  rewrite (list_lookup_total_correct _ _ _ Hc') in Hformula.
  unfold Float.gtb in Hgt, H5.
  destruct (Close r) as [| | |a] eqn:Hclose_r; try done.
  - rewrite Hformula in H5. cbn in H5.
    assert (Hsgn : Float.sgn b = Gt) by (by apply Qcgt_alt in Hpos).
    by rewrite Hsgn in H5.
  - destruct (sma_last_inf close sma_short (SMA_short r) H1 Hc Hs) as [Hn | Hn];
      by rewrite Hn in Hgt.
  - exists a. split; [done|]. apply five_percent; [done|].
    rewrite Hformula in H5. cbn [Float.sub Float.neg Float.add Float.div] in H5.
    assert (Hsgn : Float.sgn b = Gt) by (by apply Qcgt_alt in Hpos).
    rewrite Hsgn in H5. cbn in H5. by apply bool_decide_eq_true in H5.
Qed.

End reported.

(** ** How [calc_indicators] composes *)

Lemma set_column_same f name col :
  columns f !! name = Some col → set_column f name col = f.
Proof. intros H. destruct f as [idx cols]. unfold set_column. simpl in *. by rewrite insert_id. Qed.

Lemma indicator_steps_again f sma_short sma_long aroc_weeks :
  (indicator_steps (indicator_steps f sma_short sma_long aroc_weeks).1
     sma_short sma_long aroc_weeks).1
  = (indicator_steps f sma_short sma_long aroc_weeks).1.
Proof.
  pose proof (indicator_steps_close f sma_short sma_long aroc_weeks) as Hclose.
  set (g := (indicator_steps f sma_short sma_long aroc_weeks).1) in *.
  assert (Hg : g = (indicator_steps f sma_short sma_long aroc_weeks).1) by done.
  clearbody g. unfold indicator_steps in Hg |- *. rewrite Hclose.
  destruct (columns f !! "Close") as [close|]; [|done].
  destruct (decide (sma_short < 0)); [done|].
  destruct (decide (sma_long < 0)).
  { cbn [fst] in *. rewrite set_column_same; [done|]. subst g. apply lookup_insert_eq. }
  destruct (decide (aroc_weeks * 5 < 0)).
  { cbn [fst] in *. rewrite !set_column_same; [done|..]; subst g; cbn; by simplify_map_eq. }
  cbn [fst] in *. rewrite !set_column_same; [done|..]; subst g; cbn; by simplify_map_eq.
Qed.

(** X11. Running [calc_indicators] a second time on the frame it has just
    filled, with the same windows, leaves every frame as the first run left
    it: the derived columns depend on Close alone, which no run changes. *)
Theorem calc_indicators_idempotent w df f sma_short sma_long aroc_weeks :
  heap w !! df = Some f →
  heap (calc_indicators df sma_short sma_long aroc_weeks
          (calc_indicators df sma_short sma_long aroc_weeks w).2).2
  = heap (calc_indicators df sma_short sma_long aroc_weeks w).2.
Proof.
  intros Hf. rewrite (calc_indicators_run w _ _ _ _ _ Hf). cbn [snd].
  set (g := (indicator_steps f sma_short sma_long aroc_weeks).1).
  rewrite (calc_indicators_run _ df g); [|apply lookup_insert_eq].
  subst g. rewrite indicator_steps_again. cbn [snd heap log update_object].
  by rewrite insert_insert_eq.
Qed.

Lemma length_sma_column close w : length (sma_column close w) = length close.
Proof. unfold sma_column, Series.mean. by rewrite length_roll. Qed.

Lemma length_high_column close w : length (high_column close w) = length close.
Proof. unfold high_column, Series.max. by rewrite length_roll. Qed.

Lemma length_aroc_column close w : length (aroc_column close w) = length close.
Proof.
  unfold aroc_column, Series.mul_scalar, Series.div, Series.sub.
  rewrite length_fmap, !length_zip_with, !length_shift. lia.
Qed.

Lemma rectangular_set_column f name col :
  rectangular f → length col = length (index f) → rectangular (set_column f name col).
Proof.
  intros Hf Hlen name' col'. unfold set_column. cbn [columns index].
  rewrite lookup_insert. case_decide; [by intros [= <-]|apply Hf].
Qed.

(** X12. [calc_indicators] keeps a frame rectangular: when every column of
    the frame has one value per bar before the call, every column, the
    derived ones included, has one value per bar after it, whatever the
    windows. *)
Theorem calc_indicators_rectangular w df f sma_short sma_long aroc_weeks :
  heap w !! df = Some f → rectangular f →
  ∃ f', heap (calc_indicators df sma_short sma_long aroc_weeks w).2 !! df = Some f' ∧
        index f' = index f ∧ rectangular f'.
Proof.
  intros Hf Hrect. eexists. split; [by apply calc_indicators_heap|].
  split; [apply indicator_steps_frame|].
  unfold indicator_steps.
  destruct (columns f !! "Close") as [close|] eqn:Hclose; [|done].
  pose proof (Hrect _ _ Hclose) as Hlen.
  repeat case_decide; cbn [fst];
    repeat (apply rectangular_set_column;
            [|by rewrite ?length_sma_column, ?length_high_column, ?length_aroc_column]);
    done.
Qed.

(** A derived value at bar [i] reads the closes up to bar [i] only. *)
Lemma roll_prefix agg w c1 c2 i :
  (i < length c1)%nat → (i < length c2)%nat → take (S i) c1 = take (S i) c2 →
  Series.roll agg {| Series.observations := c1; Series.window := w |} !! i
  = Series.roll agg {| Series.observations := c2; Series.window := w |} !! i.
Proof.
  intros H1 H2 Ht. rewrite !roll_lookup by done. cbn.
  unfold Series.window_at. by rewrite Ht.
Qed.

Lemma prefix_lookup_total (c1 c2 : list float) i j :
  take (S i) c1 = take (S i) c2 → (j ≤ i)%nat → c1 !!! j = c2 !!! j.
Proof.
  intros Ht Hj. rewrite !list_lookup_total_alt.
  rewrite <-(lookup_take_lt c1 (S i) j), <-(lookup_take_lt c2 (S i) j) by lia.
  by rewrite Ht.
Qed.

Lemma aroc_prefix w c1 c2 i :
  0 ≤ w → (i < length c1)%nat → (i < length c2)%nat → take (S i) c1 = take (S i) c2 →
  aroc_column c1 w !! i = aroc_column c2 w !! i.
Proof.
  intros Hw H1 H2 Ht.
  unfold aroc_column, Series.mul_scalar, Series.div, Series.sub.
  rewrite !list_lookup_fmap, !lookup_zip_with, !shift_lookup by done.
  rewrite (list_lookup_lookup_total_lt c1 i H1), (list_lookup_lookup_total_lt c2 i H2).
  rewrite (prefix_lookup_total c1 c2 i i Ht) by lia.
  case_decide; [done|].
  by rewrite (prefix_lookup_total c1 c2 i (Z.to_nat (Z.of_nat i - w)) Ht) by lia.
Qed.

(** X13. No look-ahead: for positive windows, the four derived values of
    bar [i] depend only on the closes of the bars up to [i].  Two frames
    whose Close columns agree on the bars [0 .. i] get the same SMA_short,
    SMA_long, 20w_high and AROC at bar [i]. *)
Theorem no_look_ahead w1 df1 f1 close1 w2 df2 f2 close2 sma_short sma_long aroc_weeks i name :
  heap w1 !! df1 = Some f1 → columns f1 !! "Close" = Some close1 →
  heap w2 !! df2 = Some f2 → columns f2 !! "Close" = Some close2 →
  0 < sma_short → 0 < sma_long → 0 < aroc_weeks →
  (i < length close1)%nat → (i < length close2)%nat →
  take (S i) close1 = take (S i) close2 →
  name ∈ ["SMA_short"; "SMA_long"; "20w_high"; "AROC"] →
  cell (calc_indicators df1 sma_short sma_long aroc_weeks w1).2 df1 name i
  = cell (calc_indicators df2 sma_short sma_long aroc_weeks w2).2 df2 name i.
Proof.
  intros Hf1 Hc1 Hf2 Hc2 H1 H2 H3 Hi1 Hi2 Ht Hname. unfold cell.
  rewrite (calc_indicators_heap _ _ _ _ _ _ Hf1), (calc_indicators_heap _ _ _ _ _ _ Hf2).
  rewrite (indicator_steps_all _ _ _ _ _ Hc1), (indicator_steps_all _ _ _ _ _ Hc2) by lia.
  cbn [fst set_column columns mbind option_bind].
  repeat (apply elem_of_cons in Hname as [->|Hname]);
    [..|by apply elem_of_nil in Hname]; simplify_map_eq; cbn.
  - by apply roll_prefix.
  - by apply roll_prefix.
  - by apply roll_prefix.
  - apply aroc_prefix; [lia|done..].
Qed.

(** ** What a run shows *)




Section run.
Variable read_html : string → string + list table.
Variable yf_download : string → Z → string + DataFrame.





(** X16. With a universe that is not empty and the button pressed, [main]
    scans the selected tickers, or the whole universe when none is
    selected, and returns.  After the scan it clears the status line and
    the progress bar, then shows "No tickers matched the criteria." when
    no ticker matched, and otherwise the number of matches, the table of
    results in scan order and the download button for the same table. *)
Theorem main_reports ui w tickers w1 :
  get_all_tickers read_html
    (log (log w [StTitle "S&P 500 & Nasdaq 100 Technical Scanner"])
         [StWrite "Scan S&P 500 and Nasdaq 100 stocks for bullish technical setups."])
  = (Ret tickers, w1) →
  tickers ≠ [] → run_scan ui = true →
  let to_scan :=
    match selected_tickers ui with [] => tickers | _ => selected_tickers ui end in
  let results :=
    omap (ticker_outcome yf_download (sma_short_input ui) (sma_long_input ui)
            (aroc_weeks_input ui)) to_scan in
  ∃ w2,
    scan_loop yf_download (sma_short_input ui) (sma_long_input ui)
      (aroc_weeks_input ui) (length to_scan) 0 to_scan []
      (log w1 [StProgress (Float.of_Z 0)])
    = (Ret results, w2) ∧
    fetches (out w2)
    = fetches (out w1) ++ ((λ t, (t, aroc_weeks_input ui + 10)) <$> to_scan) ∧
    main read_html yf_download ui w = (Ret (), log w2 (report results)).
Proof.
  intros Hall Hne Hrun to_scan results.
  assert (Hto : to_scan = if bool_decide (selected_tickers ui = []) then tickers
                          else selected_tickers ui).
  { subst to_scan. by destruct (selected_tickers ui). }
  destruct (scan_loop_run yf_download (sma_short_input ui) (sma_long_input ui)
              (aroc_weeks_input ui) (length to_scan) to_scan 0%nat []
              (log w1 [StProgress (Float.of_Z 0)])) as (w2 & Hscan & Hd).
  rewrite app_nil_l in Hscan. exists w2. split; [done|]. split.
  { rewrite Hd. cbn [out log]. rewrite fetches_app. cbn. by rewrite app_nil_r. }
  unfold main, emit, st_stop, raise. unfold mbind at 1 2 3 4, py_bind at 1 2 3 4.
  rewrite Hall, (bool_decide_eq_false_2 _ Hne), Hrun. rewrite <-Hto.
  unfold mbind, py_bind, mret, py_ret. rewrite Hscan. fold results.
  unfold report. destruct (bool_decide (results = [])); by rewrite !log_app.
Qed.

Lemma ticker_outcome_ticker sma_short sma_long aroc_weeks ticker r :
  ticker_outcome yf_download sma_short sma_long aroc_weeks ticker = Some r →
  Ticker r = ticker.
Proof.
  unfold ticker_outcome.
  destruct (analyze_ticker yf_download ticker sma_short sma_long aroc_weeks empty_world)
    as [[[r'|]|] w'] eqn:Hrun; try done.
  intros [= ->].
  by apply analyze_ticker_Some in Hrun as (f & d & _ & _ & _ & _ & _ & _ & _ & _ & _ & Ht & _).
Qed.

(** X17. The tickers of the results of a scan are tickers that were
    scanned, in scan order: they form a sub-list of the input, so a ticker
    scanned once is reported at most once. *)
Theorem scan_results_sublist sma_short sma_long aroc_weeks total i to_scan w rs w' :
  scan_loop yf_download sma_short sma_long aroc_weeks total i to_scan [] w = (Ret rs, w') →
  sublist (Ticker <$> rs) to_scan ∧
  (NoDup to_scan → NoDup (Ticker <$> rs)).
Proof.
  intros Hrun.
  destruct (scan_loop_run yf_download sma_short sma_long aroc_weeks total to_scan i [] w)
    as (w2 & Hrun' & _).
  rewrite Hrun in Hrun'. injection Hrun' as -> _. rewrite ?app_nil_l.
  assert (Hsub : sublist
                   (Ticker <$> omap (ticker_outcome yf_download sma_short sma_long
                                       aroc_weeks) to_scan) to_scan).
  { clear Hrun. induction to_scan as [|t rest IH]; [constructor|].
    cbn [omap list_omap].
    destruct (ticker_outcome _ _ _ _ t) as [r|] eqn:Hr.
    - rewrite fmap_cons, (ticker_outcome_ticker _ _ _ _ _ Hr). by constructor.
    - by constructor. }
  split; [done|]. intros Hnd. by eapply sublist_NoDup.
Qed.

End run.

(** ** More on the entry rule *)


Section entry_rule.
Variable yf_download : string → Z → string + DataFrame.


End entry_rule.


Section outcomes.
Variable read_html : string → string + list table.
Variable yf_download : string → Z → string + DataFrame.


End outcomes.

(** ** Skipped tickers and independence *)

Section skipped.
Variable yf_download : string → Z → string + DataFrame.

(** X21. A ticker without data is skipped in one of two ways.  When the
    download succeeds with a frame that has no bar or no column, the
    analysis returns nothing and shows nothing; when the download fails, it
    returns nothing and shows one warning that names the ticker and carries
    the text of the failure. *)
Theorem skip_silent_or_warned ticker sma_short sma_long aroc_weeks w :
  match yf_download ticker (aroc_weeks + 10) with
  | inl msg =>
      ∃ w', analyze_ticker yf_download ticker sma_short sma_long aroc_weeks w
            = (Ret None, w') ∧
            out w' = out w ++ [FetchData ticker (aroc_weeks + 10);
                               StWarning ("Error fetching data for " +:+ ticker
                                          +:+ ": " +:+ msg)]
  | inr f =>
      index f = [] ∨ columns f = ∅ →
      ∃ w', analyze_ticker yf_download ticker sma_short sma_long aroc_weeks w
            = (Ret None, w') ∧
            out w' = out w ++ [FetchData ticker (aroc_weeks + 10)]
  end.
Proof.
  rewrite analyze_ticker_run. cbn zeta.
  destruct (yf_download ticker (aroc_weeks + 10)) as [msg|f].
  - eexists. split; [reflexivity|]. rewrite log_app. done.
  - intros Hempty.
    assert (He : frame_empty f = true).
    { unfold frame_empty. apply orb_true_iff.
      destruct Hempty; [left|right]; by apply bool_decide_eq_true. }
    rewrite He. eexists. split; [reflexivity|done].
Qed.

(** X22. The result for a ticker does not depend on what happened before:
    in any two worlds, whatever frames exist and whatever was shown, the
    analysis of the same ticker with the same windows returns the same
    value. *)
Theorem analysis_independent_of_history ticker sma_short sma_long aroc_weeks w1 w2 :
  (analyze_ticker yf_download ticker sma_short sma_long aroc_weeks w1).1
  = (analyze_ticker yf_download ticker sma_short sma_long aroc_weeks w2).1.
Proof.
  destruct (analyze_ticker_outcome yf_download ticker sma_short sma_long aroc_weeks w1)
    as (w1' & -> & _).
  by destruct (analyze_ticker_outcome yf_download ticker sma_short sma_long aroc_weeks w2)
    as (w2' & -> & _).
Qed.

End skipped.

(** ** The further properties at concrete inputs *)



(** The analysis of the rising series returns a result. *)
Lemma rising_result :
  ∃ r w', analyze_ticker market "UP" 2 3 1 empty_world = (Ret (Some r), w').
Proof. eexists _, _. vm_compute. reflexivity. Defined.


Lemma reported_indicators_witness :
  ∃ r w',
    analyze_ticker market "UP" 2 3 1 empty_world = (Ret (Some r), w') ∧
    SMA_short r = mean_over (Float.of_Z <$> rising) 5 2 ∧
    SMA_long r = mean_over (Float.of_Z <$> rising) 4 3 ∧
    max_over (Float.of_Z <$> rising) 2 5 (High_20w r) ∧
    AROC r = Float.mul
               (Float.div (Float.sub (Float.of_Z 120) (Float.of_Z 101)) (Float.of_Z 101))
               (Float.of_Z 100).
Proof.
  destruct rising_result as (r & w' & Hrun). exists r, w'.
  destruct (reported_indicators market "UP" 2 3 1 empty_world w' r (bars rising)
              (Float.of_Z <$> rising))
    as (_ & _ & _ & Hs & Hl & Hh & Ha); [lia|lia|lia|exact Hrun|reflexivity|reflexivity|].
  split; [exact Hrun|]. split; [exact Hs|]. split; [exact Hl|]. split; [exact Hh|exact Ha].
Defined.

Lemma short_series_no_result_witness :
  ∃ w', analyze_ticker market "UP" 2 10 1 empty_world = (Ret None, w').
Proof.
  apply (short_series_no_result market "UP" 2 10 1 empty_world (bars rising)
           (Float.of_Z <$> rising)); [lia|lia|lia|reflexivity|reflexivity|].
  right. left. vm_compute. reflexivity.
Defined.

Lemma result_means_five_percent_rise_witness :
  ∃ r w' a,
    analyze_ticker market "UP" 2 3 1 empty_world = (Ret (Some r), w') ∧
    Close r = Fin a ∧ (Q2Qc (inject_Z 101) * Q2Qc (105 # 100) < a)%Qc.
Proof.
  destruct rising_result as (r & w' & Hrun). exists r, w'.
  destruct (result_means_five_percent_rise market "UP" 2 3 1 empty_world w' r
              (bars rising) (Float.of_Z <$> rising) (Q2Qc (inject_Z 101)))
    as (a & Ha & Hlt); [lia|lia|lia|exact Hrun|reflexivity|reflexivity|reflexivity| |].
  - vm_compute. reflexivity.
  - exists a. split; [exact Hrun|]. split; [exact Ha|exact Hlt].
Defined.


Lemma calc_indicators_idempotent_witness :
  heap (calc_indicators 1 2 3 1 (calc_indicators 1 2 3 1 rising_world).2).2
  = heap (calc_indicators 1 2 3 1 rising_world).2.
Proof. apply (calc_indicators_idempotent rising_world 1 (bars rising) 2 3 1). reflexivity. Defined.

Lemma bars_rectangular closes : rectangular (bars closes).
Proof.
  intros name col. unfold bars. cbn [columns index].
  intros [_ <-]%lookup_singleton_Some.
  by rewrite !length_fmap, length_seq.

Qed.

Lemma calc_indicators_rectangular_witness :
  ∃ f', heap (calc_indicators 1 2 3 1 rising_world).2 !! 1%positive = Some f' ∧
        index f' = index (bars rising) ∧ rectangular f'.
Proof.
  apply (calc_indicators_rectangular rising_world 1 (bars rising) 2 3 1);
    [reflexivity|apply bars_rectangular].
Defined.

Lemma no_look_ahead_witness :
  cell (calc_indicators 1 2 3 1 rising_world).2 1 "AROC" 5
  = cell (calc_indicators 5 2 3 1 turning_world).2 5 "AROC" 5.
Proof.
  apply (no_look_ahead rising_world 1 (bars rising) (Float.of_Z <$> rising)
           turning_world 5 (bars turning) (Float.of_Z <$> turning) 2 3 1 5 "AROC");
    try reflexivity; try lia.
  - vm_compute. lia.
  - vm_compute. lia.
  - do 3 right. left.
Defined.


(** The universe of the demonstration pages. *)
Lemma wiki_universe :
  ∃ w1, get_all_tickers wiki titled = (Ret ["FLAT"; "NONE"; "UP"; "ZZZ"], w1).
Proof. eexists. vm_compute. reflexivity. Defined.


Lemma main_reports_witness :
  ∃ w2,
    main wiki market (defaults true) empty_world
    = (Ret (),
       log w2 (report (omap (ticker_outcome market 2 3 1) ["FLAT"; "NONE"; "UP"; "ZZZ"]))).
Proof.
  destruct wiki_universe as (w1 & Hall).
  destruct (main_reports wiki market (defaults true) empty_world
              ["FLAT"; "NONE"; "UP"; "ZZZ"] w1) as (w2 & _ & _ & Hmain);
    [exact Hall|done|reflexivity|].
  exists w2. exact Hmain.
Defined.

Lemma scan_results_sublist_witness :
  ∃ rs w',
    scan_loop market 2 3 1 3 0 ["FLAT"; "UP"; "ZZZ"] [] empty_world = (Ret rs, w') ∧
    sublist (Ticker <$> rs) ["FLAT"; "UP"; "ZZZ"].
Proof.
  assert (Hrun : ∃ rs w', scan_loop market 2 3 1 3 0 ["FLAT"; "UP"; "ZZZ"] [] empty_world
                          = (Ret rs, w')) by (eexists _, _; vm_compute; reflexivity).
  destruct Hrun as (rs & w' & Hrun). exists rs, w'. split; [exact Hrun|].
  apply (scan_results_sublist market 2 3 1 3 0 ["FLAT"; "UP"; "ZZZ"] empty_world rs w' Hrun).
Defined.

(** The demonstration pages give the Symbol column of the first table and
    the Ticker column of the second. *)
Example wiki_sources_ex :
  (get_sp500_tickers wiki empty_world).1 = Ret ["UP"; "ZZZ"; "FLAT"] ∧
  (get_nasdaq100_tickers wiki empty_world).1 = Ret ["NONE"; "UP"].
Proof. by vm_compute. Qed.

(** A whole run on the demonstration pages and market. *)
Example main_run_ex :
  statuses (out (main wiki market (defaults true) empty_world).2)
  = ["Analyzing FLAT (1/4)..."; "Analyzing NONE (2/4)..."; "Analyzing UP (3/4)...";
     "Analyzing ZZZ (4/4)..."; ""] ∧
  fetches (out (main wiki market (defaults true) empty_world).2)
  = [("FLAT", 11); ("NONE", 11); ("UP", 11); ("ZZZ", 11)].
Proof. by vm_compute. Qed.

Lemma skip_silent_or_warned_witness :
  ∃ w', analyze_ticker market "NONE" 2 3 1 empty_world = (Ret None, w') ∧
        out w' = out empty_world ++ [FetchData "NONE" (1 + 10)].
Proof.
  pose proof (skip_silent_or_warned market "NONE" 2 3 1 empty_world) as H.
  apply H. left. reflexivity.
Defined.

Lemma wiki_distinct_labels tables t :
  (wiki TICKERS_URL_SP500 = inr tables ∨ wiki TICKERS_URL_NASDAQ100 = inr tables) →
  t ∈ tables → NoDup (t.*1).
Proof.
  intros [[= <-]|[= <-]] Ht;
    repeat (apply elem_of_cons in Ht as [->|Ht]; [compute_done|]);
    by apply elem_of_nil in Ht.
Qed.

Lemma sp500_source_contained_witness :
  ∃ l evs,
    get_sp500_tickers wiki empty_world
    = (Ret l, log empty_world (ReadHtml TICKERS_URL_SP500 :: evs)) ∧
    ((evs = [] ∧
      ∃ t rest, wiki TICKERS_URL_SP500 = inr (t :: rest) ∧ (LStr "Symbol", l) ∈ t) ∨
     (l = [] ∧
      ∃ msg, evs = [StError ("Failed to fetch S&P 500 tickers: " +:+ msg)] ∧
             (wiki TICKERS_URL_SP500 = inl msg ∨
              wiki TICKERS_URL_SP500 = inr [] ∨
              ∃ t rest, wiki TICKERS_URL_SP500 = inr (t :: rest) ∧
                        ∀ vals, (LStr "Symbol", vals) ∉ t))).
Proof.
  apply (sp500_source_contained wiki empty_world).
  intros t rest H. apply (wiki_distinct_labels (t :: rest)); [by left|by left].
Defined.

Lemma nasdaq100_source_first_match_witness :
  ∃ l evs,
    get_nasdaq100_tickers wiki empty_world
    = (Ret l, log empty_world (ReadHtml TICKERS_URL_NASDAQ100 :: evs)) ∧
    match wiki TICKERS_URL_NASDAQ100 with
    | inl msg =>
        l = [] ∧ evs = [StError ("Failed to fetch Nasdaq 100 tickers: " +:+ msg)]
    | inr tables =>
        (evs = [] ∧
         ∃ i t, tables !! i = Some t ∧ first_column is_ticker_label t l ∧
                ∀ i' t', (i' < i)%nat → tables !! i' = Some t' →
                         no_column is_ticker_label t') ∨
        (l = [] ∧
         evs = [StError "Could not find 'Ticker' or 'Symbol' column in Nasdaq 100 table."] ∧
         ∀ i t, tables !! i = Some t → no_column is_ticker_label t)
    end.
Proof.
  apply (nasdaq100_source_first_match wiki empty_world).
  intros tables t H. apply wiki_distinct_labels. by right.
Defined.
